(** * Tic-Tac-Toe environment (gym/envs/board_game/tictactoe.py)

    A shallow embedding of [TicTacToeEnv] and of [make_random_policy], and
    the properties of the game engine proved on it.

    Conventions of the embedding:
    - Python integers and the [int8] cells of the board are [Z]; the only
      values the engine ever writes into a cell are 0 and 1.
    - The numpy array of shape (3, 3, 3) is its flat, C-ordered buffer, a
      list of 27 cells; [board[l, r, c]] is the cell at [l*9 + r*3 + c].
    - A method that mutates [self] is a function from the object before the
      call to the object after the call paired with what the call produced:
      a returned value, or the exception it raised.  A mutation made before
      an exception is raised stays made.
    - An instance attribute that may not have been assigned yet is an
      [option]; reading [None] is Python's [AttributeError]. *)

From Stdlib Require Import ZArith String Ascii Bool Lia.
From stdpp Require Import base list.

Local Open Scope Z_scope.

(** ** Exceptions and results *)

Inductive exn : Type :=
| AssertionError
| AttributeError (attribute : string)
| IndexError
| TypeError
| RuntimeError (msg : string)
| OverflowError
| Error (msg : string).          (* gym.error.Error *)

Definition Res (A : Type) : Type := (exn + A)%type.

Definition ok {A} (x : A) : Res A := inr x.
Definition throw {A} (e : exn) : Res A := inl e.

Definition is_raised {A} (r : Res A) : bool :=
  match r with inl _ => true | inr _ => false end.

(** A bare [raise] statement re-raises the exception that is being handled
    when it executes.  The methods are modelled as called while none is:
    the interpreter (Python 3) then has nothing to re-raise and raises this
    instead. *)
Definition bare_raise : exn := RuntimeError "No active exception to reraise".

(** ** The board *)

Abbreviation Board := (list Z).

Definition CIRCLE : Z := 0.
Definition CROSS : Z := 1.

Definition offset (layer row col : Z) : nat := Z.to_nat (layer * 9 + row * 3 + col).

(** Read of a cell whose indices are already known to be in [0, 3). *)
Definition cell (board : Board) (layer row col : Z) : Z :=
  default 0 (board !! offset layer row col).

(** numpy first converts each index, in order, to its index type, a signed
    64-bit integer.  A Python integer in [2^63, 2^64) fails the conversion
    with OverflowError; one further out is refused as an index with
    IndexError. *)
Definition prepare_index (i : Z) : Res Z :=
  if (-9223372036854775808 <=? i) && (i <? 9223372036854775808) then ok i
  else if (9223372036854775808 <=? i) && (i <? 18446744073709551616)
       then throw OverflowError
  else throw IndexError.

(** The three indices of [board[layer, row, col]], converted in order; the
    first conversion that fails raises. *)
Definition prepare_indices (layer row col : Z) : Res (Z * Z * Z) :=
  match prepare_index layer with
  | inl x => throw x
  | inr l =>
      match prepare_index row with
      | inl x => throw x
      | inr r =>
          match prepare_index col with
          | inl x => throw x
          | inr c => ok (l, r, c)
          end
      end
  end.

(** The bounds check of a converted index on an axis of length 3: an index
    in [-3, 0) counts from the end, anything outside [-3, 3) is an
    IndexError. *)
Definition norm_index (i : Z) : Res Z :=
  if (0 <=? i) && (i <? 3) then ok i
  else if (-3 <=? i) && (i <? 0) then ok (i + 3)
  else throw IndexError.

(** [board[layer, row, col]] *)
Definition getitem (board : Board) (layer row col : Z) : Res Z :=
  match prepare_indices layer row col with
  | inl x => throw x
  | inr (layer, row, col) =>
      match norm_index layer, norm_index row, norm_index col with
      | inr l, inr r, inr c => ok (cell board l r c)
      | _, _, _ => throw IndexError
      end
  end.

(** [board[layer, row, col] = v]: the array after the statement, and whether
    the statement raised. *)
Definition setitem (board : Board) (layer row col v : Z) : Board * Res unit :=
  match prepare_indices layer row col with
  | inl x => (board, throw x)
  | inr (layer, row, col) =>
      match norm_index layer, norm_index row, norm_index col with
      | inr l, inr r, inr c => (<[offset l r c := v]> board, ok tt)
      | _, _, _ => (board, throw IndexError)
      end
  end.

(** [np.zeros((3, 3, 3), dtype=np.int8)] followed by [state[2, :, :] = 1]. *)
Definition empty_board : Board := replicate 18 0 ++ replicate 9 1.

(** The cells of one layer in row-major order, as [np.where] visits them. *)
Definition grid : list (Z * Z) :=
  [(0, 0); (0, 1); (0, 2); (1, 0); (1, 1); (1, 2); (2, 0); (2, 1); (2, 2)].

(** ** Static methods of TicTacToeEnv *)

Definition coordinate_to_action (board : Board) (coords : Z * Z) : Z :=
  coords.1 * 3 + coords.2.

(** [//] and [%] of Python round towards minus infinity, as [Z.div] and
    [Z.modulo] do for a positive divisor. *)
Definition action_to_coordinate (board : Board) (action : Z) : Z * Z :=
  (action / 3, action mod 3).

Definition valid_move (board : Board) (action : Z) : Res bool :=
  let coords := action_to_coordinate board action in
  match getitem board 2 coords.1 coords.2 with
  | inr v => if v =? 1 then ok true else ok false
  | inl e => throw e
  end.

Definition make_move (board : Board) (action player : Z) : Board * Res unit :=
  let coords := action_to_coordinate board action in
  match setitem board 2 coords.1 coords.2 0 with
  | (board1, inr _) => setitem board1 player coords.1 coords.2 1
  | (board1, inl e) => (board1, throw e)
  end.

(** [np.where(board[2, :, :] == 1)]: the row indices and the column indices
    of the hits, in row-major order. *)
Definition np_where_free (board : Board) : list Z * list Z :=
  let hits := List.filter (fun p => cell board 2 p.1 p.2 =? 1) grid in
  (hits.*1, hits.*2).

Definition get_possible_actions (board : Board) : list Z :=
  let (free_x, free_y) := np_where_free board in
  List.map (fun p => coordinate_to_action board p) (zip free_x free_y).

Definition win_lines : list (list (Z * Z)) :=
  [ [(0, 0); (0, 1); (0, 2)]; [(1, 0); (1, 1); (1, 2)]; [(2, 0); (2, 1); (2, 2)];
    [(0, 0); (1, 0); (2, 0)]; [(0, 1); (1, 1); (2, 1)]; [(0, 2); (1, 2); (2, 2)];
    [(0, 0); (1, 1); (2, 2)]; [(0, 2); (1, 1); (2, 0)] ].

(** The inner loop of [game_finished]: the pair [(curxwin, curowin)] after
    the three positions of a line. *)
Definition scan_line (board : Board) (line : list (Z * Z)) : Z * Z :=
  fold_left
    (fun cur pos => (cur.1 * cell board 1 pos.1 pos.2, cur.2 * cell board 0 pos.1 pos.2))
    line (1, 1).

(** The outer loop: the pair [(xwin, owin)] after all lines. *)
Definition count_wins (board : Board) : Z * Z :=
  fold_left
    (fun acc line =>
       let cur := scan_line board line in (acc.1 + cur.1, acc.2 + cur.2))
    win_lines (0, 0).

Definition both_win_msg : string :=
  "Both players got a winning line, which should not be possible!".

(** Returns 1 if circle wins, -1 if cross wins and 0 otherwise. *)
Definition game_finished (board : Board) : Res Z :=
  let (xwin, owin) := count_wins board in
  if (xwin =? 0) && (owin =? 0) then ok 0
  else if (xwin >? 0) && (owin =? 0) then ok (-1)
  else if (xwin =? 0) && (owin >? 0) then ok 1
  else throw (Error both_win_msg).

(** [xs[i]] on a Python list. *)
Definition list_getitem (xs : list Z) (i : Z) : Res Z :=
  let n := Z.of_nat (length xs) in
  let j := if i <? 0 then i + n else i in
  if (0 <=? j) && (j <? n)
  then match xs !! Z.to_nat j with Some x => ok x | None => throw IndexError end
  else throw IndexError.

(** ** Predicates on boards *)

(** The three layers of one cell: exactly one holds 1, the others 0. *)
Definition one_hot_at (board : Board) (pos : Z * Z) : Prop :=
  let o := cell board 0 pos.1 pos.2 in
  let x := cell board 1 pos.1 pos.2 in
  let f := cell board 2 pos.1 pos.2 in
  (o = 1 /\ x = 0 /\ f = 0) \/ (o = 0 /\ x = 1 /\ f = 0) \/ (o = 0 /\ x = 0 /\ f = 1).

Definition one_hot (board : Board) : Prop :=
  forall pos, pos ∈ grid -> one_hot_at board pos.

(** The cell at [pos] is still empty. *)
Definition free (b : Board) (pos : Z * Z) : bool := cell b 2 pos.1 pos.2 =? 1.

(** The array has the 27 cells of its shape. *)
Definition shaped (board : Board) : Prop := length board = 27%nat.

(** A board of markers: the 27 cells of the array, each holding 0 or 1. *)
Definition binary (board : Board) : Prop :=
  shaped board /\ Forall (fun v => v = 0 \/ v = 1) board.

(** The same, as a check that computes. *)
Definition binaryb (board : Board) : bool :=
  (length board =? 27)%nat && forallb (fun v => (v =? 0) || (v =? 1)) board.

(** Number of cells that [player] has marked. *)
Definition marks (board : Board) (player : Z) : nat :=
  length (List.filter (fun pos => cell board player pos.1 pos.2 =? 1) grid).

(** Total number of marked cells. *)
Definition marked (board : Board) : nat :=
  (marks board CIRCLE + marks board CROSS)%nat.

(** All the cells of [line] carry the marker of [player]. *)
Definition line_won (board : Board) (player : Z) (line : list (Z * Z)) : bool :=
  forallb (fun pos => cell board player pos.1 pos.2 =? 1) line.

(** [player] has completed one of the winning lines. *)
Definition has_line (board : Board) (player : Z) : bool :=
  existsb (line_won board player) win_lines.

(** Number of the given lines that [player] has completed. *)
Definition won_lines (b : Board) (player : Z) (lines : list (list (Z * Z))) : Z :=
  Z.of_nat (length (List.filter (line_won b player) lines)).

Definition rows : list (list (Z * Z)) :=
  List.map (fun r => List.map (fun c => (r, c)) [0; 1; 2]) [0; 1; 2].
Definition columns : list (list (Z * Z)) :=
  List.map (fun c => List.map (fun r => (r, c)) [0; 1; 2]) [0; 1; 2].
Definition diagonals : list (list (Z * Z)) :=
  [ List.map (fun i => (i, i)) [0; 1; 2]; List.map (fun i => (i, 2 - i)) [0; 1; 2] ].

(** ** The random source

    [gym.utils.seeding] and numpy's [RandomState] are outside this module.
    The engine uses two operations of the generator it owns, and relies on
    the documented range of [randint]. *)

Class RandomState : Type := {
  rng : Type;
  (** the generator state that a given seed initialises *)
  rng_from_seed : Z -> rng;
  (** [np_random.randint(n)]: the number drawn and the generator afterwards *)
  randint : rng -> Z -> Z * rng;
  randint_range : forall g n, 0 < n -> 0 <= (randint g n).1 < n
}.

(** A small congruential generator, to run the engine on concrete games. *)
Definition lcg_randint (g n : Z) : Z * Z := (g mod n, (g * 5 + 3) mod 64).

Definition lcg_randint_range (g n : Z) (Hn : 0 < n) : 0 <= (lcg_randint g n).1 < n :=
  Z.mod_pos_bound g n Hn.

Definition lcg : RandomState :=
  {| rng := Z; rng_from_seed := fun s => s; randint := lcg_randint;
     randint_range := lcg_randint_range |}.

Section Engine.

Context {RS : RandomState}.
(** The private state of a caller-supplied opponent. *)
Context {PS : Type}.

(** Modelled from the spec: gym.utils.seeding.np_random, which
    "(re)initializes the random source deterministically from the given seed
    or from system entropy if omitted" and reports the seed used.  The
    entropy the system would supply is an explicit argument. *)
Definition seeding_np_random (seed : option Z) (entropy : Z) : rng * Z :=
  let s := match seed with Some s => s | None => entropy end in
  (rng_from_seed s, s).

(** [make_random_policy(np_random)] returns a closure over the generator;
    this is the body of the closure, run on the generator's current state. *)
Definition random_policy (np_random : rng) (state : Board) : rng * Res (option Z) :=
  let possible_moves := get_possible_actions state in
  (* No moves left *)
  if (length possible_moves =? 0)%nat then (np_random, ok None)
  else
    let (a, np_random') := randint np_random (Z.of_nat (length possible_moves)) in
    (np_random',
     match list_getitem possible_moves a with
     | inr m => ok (Some m)
     | inl e => throw e
     end).

(** A caller-supplied opponent: called with the board, it answers with an
    action, with [None], or raises, and may update its own state. *)
Definition Callable : Type := Board -> PS -> Res (option Z) * PS.

(** The constructor's [opponent] argument: a string or a callable object,
    the latter with the state it is in. *)
Inductive Opponent : Type :=
| OppStr (name : string)
| OppCallable (f : Callable) (st : PS).

(** What [self.opponent_policy] is bound to: the closure made by
    [make_random_policy], which holds the generator that [self.np_random] also
    names (nothing else reads that attribute), or the very object stored in
    [self.opponent]. *)
Inductive Policy : Type :=
| RandomPolicy (np_random : rng)
| TheOpponent.

Record Env : Type := mkEnv {
  player_color : Z;
  opponent : Opponent;
  observation_type : string;
  illegal_move_mode : string;
  opponent_policy : option Policy;     (* unset until _seed has run *)
  state : Board;
  to_play : Z;
  done : bool
}.

Definition set_opponent (e : Env) (o : Opponent) : Env :=
  mkEnv (player_color e) o (observation_type e) (illegal_move_mode e)
        (opponent_policy e) (state e) (to_play e) (done e).
Definition set_opponent_policy (e : Env) (p : option Policy) : Env :=
  mkEnv (player_color e) (opponent e) (observation_type e) (illegal_move_mode e)
        p (state e) (to_play e) (done e).
Definition set_state (e : Env) (b : Board) : Env :=
  mkEnv (player_color e) (opponent e) (observation_type e) (illegal_move_mode e)
        (opponent_policy e) b (to_play e) (done e).
Definition set_to_play (e : Env) (p : Z) : Env :=
  mkEnv (player_color e) (opponent e) (observation_type e) (illegal_move_mode e)
        (opponent_policy e) (state e) p (done e).
Definition set_done (e : Env) (d : bool) : Env :=
  mkEnv (player_color e) (opponent e) (observation_type e) (illegal_move_mode e)
        (opponent_policy e) (state e) (to_play e) d.

(** A method of the environment. *)
Definition M (A : Type) : Type := Env -> Env * Res A.

(** [self.opponent_policy(self.state)] *)
Definition call_opponent_policy : M (option Z) := fun e =>
  match opponent_policy e with
  | None => (e, throw (AttributeError "opponent_policy"))
  | Some (RandomPolicy g) =>
      let (g', r) := random_policy g (state e) in
      (set_opponent_policy e (Some (RandomPolicy g')), r)
  | Some TheOpponent =>
      match opponent e with
      | OppCallable f st =>
          let (r, st') := f (state e) st in
          (set_opponent e (OppCallable f st'), r)
      | OppStr _ => (e, throw TypeError)        (* a str is not callable *)
      end
  end.

(** [TicTacToeEnv.make_move(self.state, action, player)]: the array that
    [self.state] names is updated in place. *)
Definition make_move_self (action player : Z) : M unit := fun e =>
  let (board, r) := make_move (state e) action player in
  (set_state e board, r).

Definition unrecognized_opponent_msg (name : string) : string :=
  "Unrecognized opponent policy " ++ name.

(** [self.np_random] is assigned on every call.  The attribute is read
    nowhere but in the next statements, which hand the generator to
    [make_random_policy]; the model keeps the generator in that closure and
    has no separate field for the attribute. *)
Definition _seed (seed : option Z) (entropy : Z) : M (list Z) := fun e =>
  let (np_random, seed') := seeding_np_random seed entropy in
  (* Update the random policy if needed *)
  match opponent e with
  | OppStr name =>
      if String.eqb name "random"
      then (set_opponent_policy e (Some (RandomPolicy np_random)), ok [seed'])
      else (e, throw (Error (unrecognized_opponent_msg name)))
  | OppCallable _ _ =>
      (set_opponent_policy e (Some TheOpponent), ok [seed'])
  end.

Definition _reset : M Board := fun e =>
  let e := set_state e empty_board in
  let e := set_to_play e CIRCLE in
  let e := set_done e false in
  (* Let the opponent play if it's not the agent's turn *)
  if negb (player_color e =? to_play e) then
    match call_opponent_policy e with
    | (e, inl x) => (e, throw x)
    | (e, inr None) => (e, throw TypeError)       (* None // 3 *)
    | (e, inr (Some a)) =>
        match make_move_self a CIRCLE e with
        | (e, inl x) => (e, throw x)
        | (e, inr _) =>
            let e := set_to_play e CROSS in
            (e, ok (state e))
        end
    end
  else (e, ok (state e)).

(** What [_step] returns: observation, reward and done flag; the info
    dictionary holds the observation again. *)
Definition StepResult : Type := (Board * Z * bool)%type.

Definition unsupported_mode_msg (mode : string) : string :=
  "Unsupported illegal move mode: " ++ mode.

Definition _step (action : Z) : M StepResult := fun e =>
  if negb (to_play e =? player_color e) then (e, throw AssertionError)
  (* If already terminal, then don't do anything *)
  else if done e then (e, ok (state e, 0, true))
  else
    match valid_move (state e) action with
    | inl x => (e, throw x)
    | inr false =>
        if String.eqb (illegal_move_mode e) "raise" then (e, throw bare_raise)
        else if String.eqb (illegal_move_mode e) "lose" then
          (* Automatic loss on illegal move *)
          let e := set_done e true in
          (e, ok (state e, -1, true))
        else (e, throw (Error (unsupported_mode_msg (illegal_move_mode e))))
    | inr true =>
        match make_move_self action (player_color e) e with
        | (e, inl x) => (e, throw x)
        | (e, inr _) =>
            (* Opponent play *)
            match call_opponent_policy e with
            | (e, inl x) => (e, throw x)
            | (e, inr a) =>
                (* Making move if there are moves left and the game is still ongoing *)
                let moved :=
                  match a with
                  | None => (e, ok tt)
                  | Some a' =>
                      match game_finished (state e) with
                      | inl x => (e, throw x)
                      | inr g =>
                          if g =? 0 then make_move_self a' (1 - player_color e) e
                          else (e, ok tt)
                      end
                  end in
                match moved with
                | (e, inl x) => (e, throw x)
                | (e, inr _) =>
                    match game_finished (state e) with
                    | inl x => (e, throw x)
                    | inr reward =>
                        let reward :=
                          if player_color e =? CROSS then - reward else reward in
                        let e := set_done e (negb (reward =? 0)) in
                        (e, ok (state e, reward, done e))
                    end
                end
            end
        end
    end.

Definition bad_color_msg (player_color : string) : string :=
  "player_color must be 'circle' or 'cross', not " ++ player_color.

Definition colormap (player_color : string) : option Z :=
  if String.eqb player_color "circle" then Some CIRCLE
  else if String.eqb player_color "cross" then Some CROSS
  else None.

(** The constructor.  [reset] is the public name of [_reset].  The object is
    handed to [_reset] with [state], [to_play] and [done] not yet assigned;
    [_reset] assigns all three before it reads any of them, so the values
    they are given here are never seen. *)
Definition __init__ (player_color : string) (opponent : Opponent)
    (observation_type illegal_move_mode : string) (entropy : Z) : Res Env :=
  match colormap player_color with
  | None => throw (Error (bad_color_msg player_color))
  | Some color =>
      if negb (String.eqb observation_type "numpy3c") then throw AssertionError
      else if negb (String.eqb illegal_move_mode "lose" || String.eqb illegal_move_mode "raise")
      then throw AssertionError
      else if negb (String.eqb observation_type "numpy3c")
      then throw (Error ("Unsupported observation type: " ++ observation_type))
      else
        let self := mkEnv color opponent observation_type illegal_move_mode
                          None [] CIRCLE false in
        match _reset self with
        | (_, inl x) => throw x
        | (self, inr observation) =>
            match _seed None entropy self with
            | (_, inl x) => throw x
            | (self, inr _) => ok self
            end
        end
  end.

End Engine.

Section Sessions.

Context {RS : RandomState} {PS : Type}.

Abbreviation Env' := (@Env RS PS).

(** The opponent keeps to its contract: an action it returns is a legal
    move on the board it was shown. *)
Definition legal_opponent (o : @Opponent PS) : Prop :=
  match o with
  | OppStr _ => True
  | OppCallable f _ =>
      forall board st a, (f board st).1 = inr (Some a) -> valid_move board a = inr true
  end.

(** The opponent policy is bound, and if it is the caller's it keeps to the
    contract and answers with a move while cells are free. *)
Definition policy_contract (e : Env') : Prop :=
  match opponent_policy e with
  | Some (RandomPolicy _) => True
  | Some TheOpponent =>
      match opponent e with
      | OppCallable f _ =>
          forall board st,
            match (f board st).1 with
            | inr (Some a) => valid_move board a = inr true
            | inr None => get_possible_actions board = []
            | inl _ => False
            end
      | OppStr _ => False
      end
  | None => False
  end.

(** Two values of [self.opponent] that are the same object, whatever
    state a callable is in. *)
Definition same_callable (o o' : @Opponent PS) : Prop :=
  match o, o' with
  | OppStr s, OppStr s' => s = s'
  | OppCallable f _, OppCallable f' _ => f = f'
  | _, _ => False
  end.

(** The attributes that only the constructor assigns are the same in both. *)
Definition static (e e' : Env') : Prop :=
  player_color e' = player_color e /\
  illegal_move_mode e' = illegal_move_mode e /\
  observation_type e' = observation_type e /\
  same_callable (opponent e) (opponent e').

(** The board of the session is a well-formed board. *)
Definition board_ok (e : Env') : Prop := shaped (state e) /\ one_hot (state e).

(** The calls a caller can make on a session. *)
Inductive call : Type :=
| DoReset
| DoStep (action : Z)
| DoSeed (seed : option Z) (entropy : Z).

(** What a call hands back: the observation with reward and done flag
    ([reset] gives the observation alone, [seed] the seed used), or the
    exception. *)
Inductive outcome : Type :=
| Observed (board : Board)
| Stepped (r : StepResult)
| Seeded (seeds : list Z)
| Raised (x : exn).

Definition outcome_of {A} (f : A -> outcome) (r : Res A) : outcome :=
  match r with inr v => f v | inl x => Raised x end.

Definition perform (c : call) (e : Env') : Env' * outcome :=
  match c with
  | DoReset => let (e', r) := _reset e in (e', outcome_of Observed r)
  | DoStep a => let (e', r) := _step a e in (e', outcome_of Stepped r)
  | DoSeed s entropy => let (e', r) := _seed s entropy e in (e', outcome_of Seeded r)
  end.

(** A sequence of calls on one session: the session afterwards and the
    outcomes in order. *)
Fixpoint run (calls : list call) (e : Env') : Env' * list outcome :=
  match calls with
  | [] => (e, [])
  | c :: calls =>
      let (e1, o) := perform c e in
      let (e2, os) := run calls e1 in
      (e2, o :: os)
  end.

(** A sequence of steps, by the actions of the agent. *)
Definition steps (actions : list Z) (e : Env') : Env' * list outcome :=
  run (List.map DoStep actions) e.

(** The sessions a caller can hold: what the constructor returned, after
    any calls. *)
Inductive reachable : Env' -> Prop :=
| reach_init pc opp ot imm entropy e :
    __init__ pc opp ot imm entropy = inr e -> reachable e
| reach_call c e : reachable e -> reachable (perform c e).1.

End Sessions.

(** ** Contracts of a caller-supplied opponent *)

Section Contracts.

Context {PS : Type}.

(** The opponent never raises, answers with a legal move while a cell is
    free, and with [None] only when none is. *)
Definition faithful_opponent (o : @Opponent PS) : Prop :=
  match o with
  | OppStr _ => True
  | OppCallable f _ =>
      forall board st,
        match (f board st).1 with
        | inr (Some a) => valid_move board a = inr true
        | inr None => get_possible_actions board = []
        | inl _ => False
        end
  end.

End Contracts.

(** What indexing raises for an index outside [-3, 3). *)
Definition range_error (i : Z) : exn :=
  if (9223372036854775808 <=? i) && (i <? 18446744073709551616)
  then OverflowError else IndexError.

(** An action in the range that numpy accepts for the row index, counted
    from the first cell. *)
Definition in_range (a : Z) : bool := (-9 <=? a) && (a <=? 8).

(** The nine actions, in order. *)
Definition all_actions : list Z := [0; 1; 2; 3; 4; 5; 6; 7; 8].

(** The cell an action names is still empty. *)
Definition free_action (b : Board) (a : Z) : bool := free b ((a mod 9) / 3, a mod 3).

(** ** Invariants of a session *)

Section Invariants.

Context {RS : RandomState} {PS : Type}.

(** [self.opponent_policy] is bound as [_seed] binds it: to the random
    policy for the opponent "random", to the opponent itself otherwise. *)
Definition policy_bound (e : @Env RS PS) : Prop :=
  match opponent e with
  | OppStr name =>
      name = "random"%string /\ exists g, opponent_policy e = Some (RandomPolicy g)
  | OppCallable _ _ => opponent_policy e = Some TheOpponent
  end.

(** Cross has a line only in a session that is done, and then Circle has
    none. *)
Definition cross_line_ends (e : @Env RS PS) : Prop :=
  has_line (state e) CROSS = true -> done e = true /\ has_line (state e) CIRCLE = false.

(** What holds of every session a caller can hold against an opponent that
    keeps to its contract. *)
Definition session_inv (e : @Env RS PS) : Prop :=
  player_color e = CIRCLE /\ to_play e = CIRCLE /\
  (illegal_move_mode e = "lose"%string \/ illegal_move_mode e = "raise"%string) /\
  policy_bound e /\ board_ok e /\ cross_line_ends e.

End Invariants.

(** ** Rendering *)

(** The value of an [int8] after an arithmetic operation. *)
Definition wrap8 (z : Z) : Z := (z + 128) mod 256 - 128.

Definition newline : string := String (Ascii.ascii_of_nat 10) "".

(** [code = np.array(['O', 'X', ' '])] *)
Definition code : list string := ["O"; "X"; " "]%string.

(** [b = board[1, :, :] + 2*board[2, :, :]] at row [r], column [c]: both
    operations are on [int8] arrays. *)
Definition render_index (board : Board) (r c : Z) : Z :=
  wrap8 (cell board 1 r c + wrap8 (2 * cell board 2 r c)).

(** One element of [code[b[r]]]: an index in [-3, 0) counts from the end,
    one outside [-3, 3) is an IndexError. *)
Definition code_getitem (i : Z) : Res string :=
  match norm_index i with
  | inr j => match code !! Z.to_nat j with Some s => ok s | None => throw IndexError end
  | inl x => throw x
  end.

(** ['A   %s | %s | %s\n' % tuple(code[b[r]])], for the label of the row. *)
Definition render_row (board : Board) (label : string) (r : Z) : Res string :=
  match code_getitem (render_index board r 0),
        code_getitem (render_index board r 1),
        code_getitem (render_index board r 2) with
  | inr s0, inr s1, inr s2 =>
      ok (label ++ "   " ++ s0 ++ " | " ++ s1 ++ " | " ++ s2 ++ newline)%string
  | _, _, _ => throw IndexError
  end.

Definition render_header : string := ("    1   2   3" ++ newline ++ "             " ++ newline)%string.
Definition render_rule : string := ("    - + - + -" ++ newline)%string.

(** The calls of [outfile.write] in order: the text written so far, and
    the exception that stopped the writing if there was one. *)
Definition render_writes (board : Board) : string * Res unit :=
  let out := render_header in
  match render_row board "A" 0 with
  | inl x => (out, throw x)
  | inr a =>
      let out := (out ++ a ++ render_rule)%string in
      match render_row board "B" 1 with
      | inl x => (out, throw x)
      | inr b =>
          let out := (out ++ b ++ render_rule)%string in
          match render_row board "C" 2 with
          | inl x => (out, throw x)
          | inr c => ((out ++ c)%string, ok tt)
          end
      end
  end.

(** What [_render] returns: [None], the [StringIO] with its contents, or
    [sys.stdout] itself. *)
Inductive rendered : Type :=
| RenderedNone
| RenderedBuffer (text : string)
| RenderedStdout.

(** [_render] on the board of the session: the text that reached
    [sys.stdout], and what the call returned or raised. *)
Definition render_board (mode : string) (close : bool) (board : Board)
  : string * Res rendered :=
  if close then (EmptyString, ok RenderedNone)
  else
    let (text, r) := render_writes board in
    if String.eqb mode "ansi" then
      (EmptyString,
       match r with
       | inr _ => ok (RenderedBuffer text)
       | inl x => throw x
       end)
    else
      (text,
       match r with
       | inr _ => if negb (String.eqb mode "human") then ok RenderedStdout else ok RenderedNone
       | inl x => throw x
       end).

Definition _render {RS : RandomState} {PS : Type} (mode : string) (close : bool)
    (e : @Env RS PS) : string * Res rendered :=
  render_board mode close (state e).

(** The symbol of a cell, by its layers. *)
Definition symbol (board : Board) (r c : Z) : Ascii.ascii :=
  if cell board CIRCLE r c =? 1 then "O"%char
  else if cell board CROSS r c =? 1 then "X"%char
  else " "%char.

(** Where the symbol of the cell [(r, c)] stands in the rendered text:
    lines of 14 characters, rows on lines 2, 4 and 6, columns 4 apart. *)
Definition symbol_position (r c : Z) : nat := Z.to_nat (32 + 28 * r + 4 * c).

(** The row of the picture for row [r] of the board, by the symbols of
    its cells. *)
Definition text_row (board : Board) (label : string) (r : Z) : string :=
  (label ++ "   " ++ String (symbol board r 0) "" ++ " | " ++
   String (symbol board r 1) "" ++ " | " ++ String (symbol board r 2) "" ++ newline)%string.

(** The picture of a board. *)
Definition render_text (board : Board) : string :=
  (render_header ++ text_row board "A" 0 ++ render_rule ++
   text_row board "B" 1 ++ render_rule ++ text_row board "C" 2)%string.

(** A cell flagged both as Cross's and as empty. *)
Definition bad_cell (board : Board) (pos : Z * Z) : bool :=
  (cell board 1 pos.1 pos.2 =? 1) && (cell board 2 pos.1 pos.2 =? 1).

(** ** Concrete sessions, to run the engine on *)

(** An opponent that replays a fixed list of moves and then has none left. *)
Definition scripted : @Callable (list Z) := fun board st =>
  match st with
  | a :: rest => (ok (Some a), rest)
  | [] => (ok None, [])
  end.

(** A session against the built-in random opponent. *)
Definition random_session (mode : string) : Res (@Env lcg unit) :=
  __init__ "circle" (OppStr "random") "numpy3c" mode 5.

(** A session against the scripted opponent. *)
Definition scripted_session (mode : string) (script : list Z) : Res (@Env lcg (list Z)) :=
  __init__ "circle" (OppCallable scripted script) "numpy3c" mode 11.

(** The session after the given calls, or a session that cannot be stepped
    if the constructor failed. *)
Definition after {RS : RandomState} {PS : Type} (calls : list call) (s : Res (@Env RS PS))
    (fallback : @Opponent PS) : @Env RS PS :=
  match s with
  | inr e => (run calls e).1
  | inl _ => mkEnv CIRCLE fallback "" "" None [] CROSS false
  end.

(** A drawn game: the agent (O) takes 4, 8, 1, 3 and then 6, the opponent
    (X) answers 0, 2, 7, 5.
<<
      X | O | X
      O | O | X
      O | X | O
>> *)
Definition draw_script : list Z := [0; 2; 7; 5].
Definition before_last_move : @Env lcg (list Z) :=
  after (List.map DoStep [4; 8; 1; 3]) (scripted_session "lose" draw_script) (OppStr "").
Definition full_board : Board :=
  [0; 1; 0; 1; 1; 0; 1; 0; 1;
   1; 0; 1; 0; 0; 1; 0; 1; 0;
   0; 0; 0; 0; 0; 0; 0; 0; 0].

(** A session against the random opponent, in either mode, after the agent
    took the centre. *)
Definition centre_taken (mode : string) : @Env lcg unit :=
  after [DoSeed (Some 7) 0; DoReset; DoStep 4] (random_session mode) (OppStr "").

(** A finished game: the agent completed the top row. *)
Definition won_session : @Env lcg unit :=
  after [DoSeed (Some 7) 0; DoReset; DoStep 4; DoStep 0; DoStep 1; DoStep 2]
        (random_session "raise") (OppStr "").

(** A corrupted board: Cross has the top row already, Circle is one move
    from the middle row, and the session is not marked done. *)
Definition corrupted_board : Board :=
  [0; 0; 0; 1; 1; 0; 0; 0; 0;
   1; 1; 1; 0; 0; 0; 0; 0; 0;
   0; 0; 0; 0; 0; 1; 1; 1; 1].
Definition corrupted_session : @Env lcg unit :=
  mkEnv CIRCLE (OppStr "random") "numpy3c" "raise" (Some (RandomPolicy (RS := lcg) 3))
        corrupted_board CIRCLE false.
Definition both_won_board : Board :=
  [0; 0; 0; 1; 1; 1; 0; 0; 0;
   1; 1; 1; 0; 0; 0; 0; 0; 0;
   0; 0; 0; 0; 0; 0; 1; 1; 1].

(** A session against the random opponent, reseeded and reset, with
    nothing played yet. *)
Definition fresh_session : @Env lcg unit :=
  after [DoSeed (Some 7) 0; DoReset] (random_session "raise") (OppStr "").

(** A board on which the cell (1, 0) is flagged both as Cross's and as
    empty. *)
Definition crossed_free_board : Board :=
  [0; 0; 0; 0; 0; 0; 0; 0; 0;
   0; 0; 0; 1; 0; 0; 0; 0; 0;
   1; 1; 1; 1; 1; 1; 1; 1; 1].

(** ** Properties of the board operations *)

Lemma norm_index_range i j : norm_index i = inr j -> 0 <= j < 3.
Proof.
  unfold norm_index, ok, throw.
  destruct ((0 <=? i) && (i <? 3)) eqn:H1.
  - intros [= <-]. apply andb_true_iff in H1. lia.
  - destruct ((-3 <=? i) && (i <? 0)) eqn:H2; [|discriminate].
    intros [= <-]. apply andb_true_iff in H2. lia.
Qed.

Lemma norm_index_id i : 0 <= i < 3 -> norm_index i = inr i.
Proof.
  intros H. unfold norm_index.
  replace ((0 <=? i) && (i <? 3)) with true; [reflexivity|].
  symmetry. apply andb_true_iff. lia.
Qed.

Lemma norm_index_dom i j : norm_index i = inr j -> -3 <= i < 3.
Proof.
  unfold norm_index, ok, throw.
  destruct ((0 <=? i) && (i <? 3)) eqn:H1.
  - intros _. apply andb_true_iff in H1. lia.
  - destruct ((-3 <=? i) && (i <? 0)) eqn:H2; [|discriminate].
    intros _. apply andb_true_iff in H2. lia.
Qed.

Lemma norm_index_fail i x : norm_index i = inl x -> x = IndexError /\ ~ (-3 <= i < 3).
Proof.
  unfold norm_index, ok, throw.
  destruct ((0 <=? i) && (i <? 3)) eqn:H1; [discriminate|].
  destruct ((-3 <=? i) && (i <? 0)) eqn:H2; [discriminate|].
  intros [= <-]. split; [reflexivity|].
  apply andb_false_iff in H1, H2. lia.
Qed.

Lemma prepare_index_id i :
  -9223372036854775808 <= i < 9223372036854775808 -> prepare_index i = inr i.
Proof.
  intros H. unfold prepare_index.
  replace ((-9223372036854775808 <=? i) && (i <? 9223372036854775808)) with true;
    [reflexivity|].
  symmetry. apply andb_true_iff. lia.
Qed.

(** An index outside [-3, 3) fails with [range_error], at the conversion or
    at the bounds check. *)
Lemma prepare_index_out i :
  ~ (-3 <= i < 3) ->
  prepare_index i = inl (range_error i) \/
  (prepare_index i = inr i /\ range_error i = IndexError).
Proof.
  intros Hout. unfold prepare_index, range_error, ok, throw.
  destruct ((-9223372036854775808 <=? i) && (i <? 9223372036854775808)) eqn:H1.
  - right. split; [reflexivity|]. apply andb_true_iff in H1.
    replace ((9223372036854775808 <=? i) && (i <? 18446744073709551616)) with false;
      [reflexivity|].
    symmetry. apply andb_false_iff. lia.
  - left. destruct ((9223372036854775808 <=? i) && (i <? 18446744073709551616));
      reflexivity.
Qed.

Lemma prepare_index_of_norm i j : norm_index i = inr j -> prepare_index i = inr i.
Proof. intros H. apply norm_index_dom in H. apply prepare_index_id. lia. Qed.

Lemma getitem_ok (b : Board) l r c l' r' c' :
  norm_index l = inr l' -> norm_index r = inr r' -> norm_index c = inr c' ->
  getitem b l r c = ok (cell b l' r' c').
Proof.
  intros Hl Hr Hc. unfold getitem, prepare_indices.
  rewrite (prepare_index_of_norm _ _ Hl), (prepare_index_of_norm _ _ Hr),
    (prepare_index_of_norm _ _ Hc).
  unfold ok. rewrite Hl, Hr, Hc. reflexivity.
Qed.

Lemma getitem_bad_row (b : Board) l r c l' c' x :
  norm_index l = inr l' -> norm_index r = inl x -> norm_index c = inr c' ->
  getitem b l r c = throw (range_error r).
Proof.
  intros Hl Hr Hc. unfold getitem, prepare_indices.
  rewrite (prepare_index_of_norm _ _ Hl).
  apply norm_index_fail in Hr as Hout. destruct Hout as [_ Hout].
  destruct (prepare_index_out r Hout) as [-> | [-> ->]]; [reflexivity|].
  rewrite (prepare_index_of_norm _ _ Hc). unfold ok. rewrite Hl, Hr. reflexivity.
Qed.

Lemma setitem_ok (b : Board) l r c v l' r' c' :
  norm_index l = inr l' -> norm_index r = inr r' -> norm_index c = inr c' ->
  setitem b l r c v = (<[offset l' r' c' := v]> b, ok tt).
Proof.
  intros Hl Hr Hc. unfold setitem, prepare_indices.
  rewrite (prepare_index_of_norm _ _ Hl), (prepare_index_of_norm _ _ Hr),
    (prepare_index_of_norm _ _ Hc).
  unfold ok. rewrite Hl, Hr, Hc. reflexivity.
Qed.

Lemma setitem_bad_row (b : Board) l r c v l' c' x :
  norm_index l = inr l' -> norm_index r = inl x -> norm_index c = inr c' ->
  setitem b l r c v = (b, throw (range_error r)).
Proof.
  intros Hl Hr Hc. unfold setitem, prepare_indices.
  rewrite (prepare_index_of_norm _ _ Hl).
  apply norm_index_fail in Hr as Hout. destruct Hout as [_ Hout].
  destruct (prepare_index_out r Hout) as [-> | [-> ->]]; [reflexivity|].
  rewrite (prepare_index_of_norm _ _ Hc). unfold ok. rewrite Hl, Hr. reflexivity.
Qed.

Lemma setitem_bad_layer (b : Board) l r c v r' c' x :
  norm_index l = inl x -> norm_index r = inr r' -> norm_index c = inr c' ->
  setitem b l r c v = (b, throw (range_error l)).
Proof.
  intros Hl Hr Hc. unfold setitem, prepare_indices.
  apply norm_index_fail in Hl as Hout. destruct Hout as [_ Hout].
  destruct (prepare_index_out l Hout) as [-> | [-> ->]]; [reflexivity|].
  rewrite (prepare_index_of_norm _ _ Hr), (prepare_index_of_norm _ _ Hc).
  unfold ok. rewrite Hl. reflexivity.
Qed.

Lemma setitem_shaped (b : Board) l r c v : shaped b -> shaped (setitem b l r c v).1.
Proof.
  intros Hs. unfold setitem.
  destruct (prepare_indices l r c) as [x|[[l0 r0] c0]]; [exact Hs|].
  destruct (norm_index l0), (norm_index r0), (norm_index c0); simpl; try exact Hs.
  unfold shaped. rewrite length_insert. exact Hs.
Qed.

Lemma norm_index_2 : norm_index 2 = inr 2.
Proof. reflexivity. Qed.

Lemma norm_index_col a : norm_index (a mod 3) = inr (a mod 3).
Proof. apply norm_index_id. apply Z.mod_pos_bound. lia. Qed.

Lemma grid_spec r c : (r, c) ∈ grid <-> 0 <= r < 3 /\ 0 <= c < 3.
Proof.
  unfold grid. split.
  - rewrite !elem_of_cons, elem_of_nil.
    intros H. repeat destruct H as [H|H]; try (simplify_eq; lia); try contradiction.
  - intros [Hr Hc].
    assert (r = 0 \/ r = 1 \/ r = 2) as Hr' by lia.
    assert (c = 0 \/ c = 1 \/ c = 2) as Hc' by lia.
    destruct Hr' as [-> | [-> | ->]], Hc' as [-> | [-> | ->]];
      rewrite !elem_of_cons; tauto.
Qed.

Lemma offset_inj l r c l' r' c' :
  0 <= l < 3 -> 0 <= r < 3 -> 0 <= c < 3 ->
  0 <= l' < 3 -> 0 <= r' < 3 -> 0 <= c' < 3 ->
  offset l r c = offset l' r' c' -> l = l' /\ r = r' /\ c = c'.
Proof. unfold offset. lia. Qed.

Lemma offset_lt l r c :
  0 <= l < 3 -> 0 <= r < 3 -> 0 <= c < 3 -> (offset l r c < 27)%nat.
Proof. unfold offset. lia. Qed.

Lemma cell_insert_same (b : Board) l r c v :
  shaped b -> 0 <= l < 3 -> 0 <= r < 3 -> 0 <= c < 3 ->
  cell (<[offset l r c := v]> b) l r c = v.
Proof.
  intros Hs Hl Hr Hc. unfold cell.
  rewrite list_lookup_insert_eq; [reflexivity|].
  rewrite Hs. apply offset_lt; assumption.
Qed.

Lemma cell_insert_other (b : Board) l r c l' r' c' v :
  0 <= l < 3 -> 0 <= r < 3 -> 0 <= c < 3 ->
  0 <= l' < 3 -> 0 <= r' < 3 -> 0 <= c' < 3 ->
  (l, r, c) <> (l', r', c') ->
  cell (<[offset l r c := v]> b) l' r' c' = cell b l' r' c'.
Proof.
  intros Hl Hr Hc Hl' Hr' Hc' Hne. unfold cell.
  rewrite list_lookup_insert_ne; [reflexivity|].
  intros Heq. apply offset_inj in Heq; try assumption.
  destruct Heq as (-> & -> & ->). apply Hne. reflexivity.
Qed.

Lemma shaped_insert (b : Board) i v : shaped b -> shaped (<[i := v]> b).
Proof. unfold shaped. rewrite length_insert. trivial. Qed.

Lemma shaped_empty_board : shaped empty_board.
Proof. reflexivity. Qed.

Lemma one_hot_empty_board : one_hot empty_board.
Proof.
  intros [r c] Hin. unfold grid in Hin.
  rewrite !elem_of_cons, elem_of_nil in Hin.
  repeat destruct Hin as [Hin|Hin]; try (simplify_eq; right; right; repeat split; reflexivity);
    try contradiction.
Qed.

Lemma mod3_range a : 0 <= a mod 3 < 3.
Proof. apply Z.mod_pos_bound. lia. Qed.

Lemma valid_move_inv (b : Board) a v :
  valid_move b a = inr v ->
  exists r, norm_index (a / 3) = inr r /\ 0 <= r < 3 /\
            v = (cell b 2 r (a mod 3) =? 1).
Proof.
  unfold valid_move, action_to_coordinate. simpl fst. simpl snd.
  destruct (norm_index (a / 3)) as [x|r] eqn:Hr.
  - rewrite (getitem_bad_row b 2 (a / 3) (a mod 3) 2 (a mod 3) x norm_index_2 Hr
               (norm_index_col a)).
    discriminate.
  - rewrite (getitem_ok b 2 (a / 3) (a mod 3) 2 r (a mod 3) norm_index_2 Hr
               (norm_index_col a)).
    intros Hv. exists r. split; [reflexivity|].
    split; [eapply norm_index_range; eassumption|].
    unfold ok in Hv. destruct (cell b 2 r (a mod 3) =? 1); congruence.
Qed.

Lemma valid_move_intro (b : Board) a r :
  norm_index (a / 3) = inr r ->
  valid_move b a = inr (cell b 2 r (a mod 3) =? 1).
Proof.
  intros Hr. unfold valid_move, action_to_coordinate. simpl fst. simpl snd.
  rewrite (getitem_ok b 2 (a / 3) (a mod 3) 2 r (a mod 3) norm_index_2 Hr
             (norm_index_col a)).
  unfold ok. destruct (cell b 2 r (a mod 3) =? 1); reflexivity.
Qed.

Lemma make_move_eq (b : Board) a p r :
  norm_index (a / 3) = inr r -> 0 <= p < 3 ->
  make_move b a p =
    (<[offset p r (a mod 3) := 1]> (<[offset 2 r (a mod 3) := 0]> b), ok tt).
Proof.
  intros Hr Hp. unfold make_move, action_to_coordinate. simpl fst. simpl snd.
  rewrite (setitem_ok b 2 (a / 3) (a mod 3) 0 2 r (a mod 3) norm_index_2 Hr
             (norm_index_col a)).
  apply (setitem_ok _ p (a / 3) (a mod 3) 1 p r (a mod 3)
           (norm_index_id p Hp) Hr (norm_index_col a)).
Qed.

(** A cell of the board after a move of [p] on the cell [(r, c)]. *)
Lemma cell_after_move (b : Board) p r c l' r' c' :
  shaped b -> (p = 0 \/ p = 1) -> 0 <= r < 3 -> 0 <= c < 3 ->
  0 <= l' < 3 -> 0 <= r' < 3 -> 0 <= c' < 3 ->
  cell (<[offset p r c := 1]> (<[offset 2 r c := 0]> b)) l' r' c' =
    if decide ((r', c') = (r, c))
    then (if decide (l' = p) then 1 else if decide (l' = 2) then 0 else cell b l' r' c')
    else cell b l' r' c'.
Proof.
  intros Hs Hp Hr Hc Hl' Hr' Hc'.
  assert (0 <= p < 3) as Hp3 by lia.
  destruct (decide ((r', c') = (r, c))) as [Heq|Hne].
  - injection Heq as -> ->.
    destruct (decide (l' = p)) as [->|Hlp].
    + apply cell_insert_same; try assumption. apply shaped_insert, Hs.
    + rewrite cell_insert_other; try assumption; try lia; [|congruence].
      destruct (decide (l' = 2)) as [->|Hl2].
      * apply cell_insert_same; try assumption; lia.
      * apply cell_insert_other; try assumption; try lia. congruence.
  - rewrite !cell_insert_other; try assumption; try lia; congruence.
Qed.

Lemma make_move_keeps_one_hot (b : Board) a p :
  shaped b -> one_hot b -> valid_move b a = inr true -> (p = 0 \/ p = 1) ->
  exists b', make_move b a p = (b', ok tt) /\ shaped b' /\ one_hot b'.
Proof.
  intros Hs Hoh Hv Hp.
  destruct (valid_move_inv _ _ _ Hv) as (r & Hn & Hr & Hfree).
  symmetry in Hfree. apply Z.eqb_eq in Hfree.
  pose proof (mod3_range a) as Hc.
  eexists. split; [apply make_move_eq; [exact Hn | lia]|].
  split; [apply shaped_insert, shaped_insert, Hs|].
  intros [r' c'] Hin. apply grid_spec in Hin as [Hr' Hc'].
  unfold one_hot_at. simpl fst. simpl snd.
  rewrite !(cell_after_move b p r (a mod 3)) by (assumption || lia).
  destruct (decide ((r', c') = (r, a mod 3))) as [Heq|Hne].
  - injection Heq as -> ->.
    assert ((r, a mod 3) ∈ grid) as Hg by (apply grid_spec; split; assumption).
    specialize (Hoh _ Hg). unfold one_hot_at in Hoh. simpl fst in Hoh. simpl snd in Hoh.
    destruct Hp as [-> | ->]; repeat case_decide; lia.
  - assert ((r', c') ∈ grid) as Hg by (apply grid_spec; split; assumption).
    exact (Hoh _ Hg).
Qed.

(** [make_move] never changes the number of cells of the array. *)
Lemma make_move_shaped (b : Board) a p : shaped b -> shaped (make_move b a p).1.
Proof.
  intros Hs. unfold make_move.
  pose proof (setitem_shaped b 2 (action_to_coordinate b a).1
                (action_to_coordinate b a).2 0 Hs) as H1.
  destruct (setitem b 2 (action_to_coordinate b a).1 (action_to_coordinate b a).2 0)
    as [b1 [x|u]]; simpl in *; [exact H1|].
  apply setitem_shaped. exact H1.
Qed.

Lemma get_possible_actions_eq (b : Board) :
  get_possible_actions b =
    List.map (fun pos => pos.1 * 3 + pos.2) (List.filter (free b) grid).
Proof.
  unfold get_possible_actions, np_where_free.
  rewrite zip_fst_snd. reflexivity.
Qed.

Lemma possible_action_valid (b : Board) m :
  In m (get_possible_actions b) -> valid_move b m = inr true.
Proof.
  rewrite get_possible_actions_eq. intros Hin.
  apply in_map_iff in Hin as ([r c] & <- & Hin).
  apply filter_In in Hin as [Hg Hfree].
  apply list_elem_of_In, grid_spec in Hg as [Hr Hc].
  simpl fst. simpl snd. unfold free in Hfree. simpl in Hfree.
  assert ((r * 3 + c) / 3 = r) as Hdiv by (symmetry; apply (Z.div_unique _ 3 r c); lia).
  assert ((r * 3 + c) mod 3 = c) as Hmod by (symmetry; apply (Z.mod_unique _ 3 r c); lia).
  rewrite (valid_move_intro b _ r) by (rewrite Hdiv; apply norm_index_id; exact Hr).
  rewrite Hmod, Hfree. reflexivity.
Qed.

Lemma list_getitem_in_range (xs : list Z) i :
  0 <= i < Z.of_nat (length xs) ->
  exists x, list_getitem xs i = inr x /\ In x xs.
Proof.
  intros Hi. unfold list_getitem.
  replace (i <? 0) with false by (symmetry; apply Z.ltb_ge; lia).
  replace ((0 <=? i) && (i <? Z.of_nat (length xs))) with true
    by (symmetry; apply andb_true_iff; lia).
  destruct (xs !! Z.to_nat i) as [x|] eqn:Hx.
  - exists x. split; [reflexivity|].
    apply list_elem_of_In, list_elem_of_lookup. eauto.
  - apply lookup_ge_None in Hx. lia.
Qed.

(** One-hot cells are either free or marked, never both. *)
Lemma one_hot_free_xor_marked (b : Board) pos :
  one_hot_at b pos ->
  free b pos = negb ((cell b CIRCLE pos.1 pos.2 =? 1) || (cell b CROSS pos.1 pos.2 =? 1)) /\
  ((cell b CIRCLE pos.1 pos.2 =? 1) && (cell b CROSS pos.1 pos.2 =? 1) = false).
Proof.
  unfold one_hot_at, free, CIRCLE, CROSS.
  intros [(-> & -> & ->) | [(-> & -> & ->) | (-> & -> & ->)]]; split; reflexivity.
Qed.

Lemma count_free_and_marked (b : Board) (cells : list (Z * Z)) :
  (forall pos, In pos cells -> one_hot_at b pos) ->
  (length (List.filter (free b) cells)
   + (length (List.filter (fun pos => (cell b CIRCLE pos.1 pos.2 =? 1)%Z) cells)
      + length (List.filter (fun pos => (cell b CROSS pos.1 pos.2 =? 1)%Z) cells))
   = length cells)%nat.
Proof.
  induction cells as [|pos cells IH]; intros Hoh; [reflexivity|].
  assert (one_hot_at b pos) as Hpos by (apply Hoh; left; reflexivity).
  specialize (IH (fun p Hp => Hoh p (or_intror Hp))).
  destruct (one_hot_free_xor_marked b pos Hpos) as [Hf Hm].
  simpl. rewrite Hf.
  destruct (cell b CIRCLE pos.1 pos.2 =? 1), (cell b CROSS pos.1 pos.2 =? 1);
    simpl in *; try discriminate; lia.
Qed.

Lemma one_hot_count (b : Board) :
  one_hot b -> (length (get_possible_actions b) + marked b = 9)%nat.
Proof.
  intros Hoh. rewrite get_possible_actions_eq, length_map. unfold marked, marks.
  rewrite (count_free_and_marked b grid); [reflexivity|].
  intros pos Hin. apply Hoh, list_elem_of_In, Hin.
Qed.

(** ** Win detection *)

Lemma binaryb_sound (b : Board) : binaryb b = true -> binary b.
Proof.
  unfold binaryb, binary, shaped. rewrite andb_true_iff, forallb_forall, Forall_forall.
  intros [Hlen H]. split; [apply Nat.eqb_eq, Hlen|].
  intros v Hv. apply list_elem_of_In, H in Hv.
  apply orb_true_iff in Hv as [Hv | Hv]; apply Z.eqb_eq in Hv; auto.
Qed.

Lemma binary_cell (b : Board) l r c : binary b -> cell b l r c = 0 \/ cell b l r c = 1.
Proof.
  intros [_ Hb]. unfold cell.
  destruct (b !! offset l r c) as [v|] eqn:Hv; simpl; [|left; reflexivity].
  rewrite Forall_lookup in Hb. exact (Hb _ _ Hv).
Qed.

Lemma scan_line_fold (b : Board) line acc :
  binary b ->
  fold_left
    (fun cur pos => (cur.1 * cell b 1 pos.1 pos.2, cur.2 * cell b 0 pos.1 pos.2))
    line acc
  = (acc.1 * (if line_won b CROSS line then 1 else 0),
     acc.2 * (if line_won b CIRCLE line then 1 else 0)).
Proof.
  intros Hb. revert acc.
  induction line as [|pos line IH]; intros [x o]; simpl.
  - f_equal; lia.
  - rewrite IH. simpl. unfold CROSS, CIRCLE.
    destruct (binary_cell b 1 pos.1 pos.2 Hb) as [-> | ->],
             (binary_cell b 0 pos.1 pos.2 Hb) as [-> | ->]; simpl; f_equal; lia.
Qed.

(** A line counts 1 for a player exactly when its cells all carry the
    player's marker, and 0 otherwise. *)
Lemma scan_line_binary (b : Board) line :
  binary b ->
  scan_line b line =
    (if line_won b CROSS line then 1 else 0, if line_won b CIRCLE line then 1 else 0).
Proof.
  intros Hb. unfold scan_line. rewrite scan_line_fold by exact Hb.
  simpl. f_equal; destruct (line_won b _ line); reflexivity.
Qed.

Lemma count_wins_fold (b : Board) lines acc :
  binary b ->
  fold_left
    (fun acc line =>
       let cur := scan_line b line in (acc.1 + cur.1, acc.2 + cur.2))
    lines acc
  = (acc.1 + won_lines b CROSS lines, acc.2 + won_lines b CIRCLE lines).
Proof.
  intros Hb. revert acc. unfold won_lines.
  induction lines as [|line lines IH]; intros [x o]; simpl.
  - f_equal; lia.
  - rewrite IH, scan_line_binary by exact Hb. simpl.
    destruct (line_won b CROSS line), (line_won b CIRCLE line); simpl length; f_equal; lia.
Qed.

Lemma won_lines_has_line (b : Board) player :
  (won_lines b player win_lines =? 0) = negb (has_line b player) /\
  (won_lines b player win_lines >? 0) = has_line b player.
Proof.
  unfold won_lines, has_line.
  induction win_lines as [|line lines [IH1 IH2]]; [split; reflexivity|].
  simpl. destruct (line_won b player line); simpl.
  - split; reflexivity.
  - split; assumption.
Qed.

(** The result of [game_finished] on a board of markers, by who has
    completed a line. *)
Lemma game_finished_binary (b : Board) :
  binary b ->
  game_finished b =
    match has_line b CROSS, has_line b CIRCLE with
    | false, false => ok 0
    | true, false => ok (-1)
    | false, true => ok 1
    | true, true => throw (Error both_win_msg)
    end.
Proof.
  intros Hb. unfold game_finished, count_wins.
  rewrite count_wins_fold by exact Hb. simpl fst. simpl snd.
  rewrite !Z.add_0_l.
  destruct (won_lines_has_line b CROSS) as [-> ->].
  destruct (won_lines_has_line b CIRCLE) as [-> ->].
  destruct (has_line b CROSS), (has_line b CIRCLE); reflexivity.
Qed.

(** ** Properties of the engine *)

Create HintDb engine.

Section Properties.

Context {RS : RandomState} {PS : Type}.

Implicit Types (e : @Env RS PS) (o : @Opponent PS).

Lemma same_callable_refl o : same_callable o o.
Proof. destruct o; reflexivity. Qed.

Lemma same_callable_trans o1 o2 o3 :
  same_callable o1 o2 -> same_callable o2 o3 -> same_callable o1 o3.
Proof. destruct o1, o2, o3; simpl; congruence || contradiction. Qed.

Lemma legal_same_callable o o' :
  same_callable o o' -> legal_opponent o <-> legal_opponent o'.
Proof. destruct o, o'; simpl; try contradiction; [tauto|]. intros ->. tauto. Qed.

Lemma static_refl e : static e e.
Proof. repeat split. apply same_callable_refl. Qed.

Lemma static_trans e1 e2 e3 : static e1 e2 -> static e2 e3 -> static e1 e3.
Proof.
  intros (H1 & H2 & H3 & H4) (K1 & K2 & K3 & K4).
  repeat split; try congruence. eapply same_callable_trans; eassumption.
Qed.

(** The built-in policy never raises: it answers [None] when no cell is
    free and a legal move otherwise. *)
Lemma random_policy_spec (g : rng) (b : Board) :
  exists g',
    (random_policy g b = (g', inr None) /\ get_possible_actions b = []) \/
    (exists a, random_policy g b = (g', inr (Some a)) /\ In a (get_possible_actions b)).
Proof.
  unfold random_policy.
  destruct (get_possible_actions b) as [|m ms] eqn:Hm.
  - exists g. left. split; reflexivity.
  - set (n := Z.of_nat (length (m :: ms))).
    pose proof (randint_range g n ltac:(unfold n; simpl length; lia)) as Hrange.
    replace (length (m :: ms) =? 0)%nat with false by reflexivity.
    destruct (randint g n) as [a g'] eqn:Hr. simpl in Hrange.
    exists g'. right.
    destruct (list_getitem_in_range (m :: ms) a Hrange) as (x & Hx & Hin).
    exists x. rewrite Hx. split; [reflexivity | exact Hin].
Qed.

Lemma call_opponent_policy_inv e e' r :
  call_opponent_policy e = (e', r) ->
  state e' = state e /\ to_play e' = to_play e /\ done e' = done e /\ static e e' /\
  (legal_opponent (opponent e) ->
   forall a, r = inr (Some a) -> valid_move (state e) a = inr true).
Proof.
  unfold call_opponent_policy.
  destruct (opponent_policy e) as [[g|]|] eqn:Hp.
  - destruct (random_policy_spec g (state e)) as (g' & [[Hr _] | (a & Hr & Hin)]);
      rewrite Hr; intros [= <- <-]; simpl;
      (repeat split; try apply same_callable_refl); intros _ a' [= <-].
    apply possible_action_valid, Hin.
  - destruct (opponent e) as [name|f st] eqn:Ho.
    + intros [= <- <-]. repeat split; try apply same_callable_refl.
      intros _ a'. discriminate.
    + destruct (f (state e) st) as [r' st'] eqn:Hf. intros [= <- <-]. simpl.
      repeat split; [rewrite Ho; reflexivity|].
      intros Hlegal a' ->. apply (Hlegal (state e) st a'). rewrite Hf. reflexivity.
  - intros [= <- <-]. repeat split; try apply same_callable_refl. intros _ a'. discriminate.
Qed.

Lemma make_move_self_inv a p e e' r :
  make_move_self a p e = (e', r) ->
  e' = set_state e (make_move (state e) a p).1 /\ r = (make_move (state e) a p).2.
Proof.
  unfold make_move_self. destruct (make_move (state e) a p) as [b r']. intros [= <- <-].
  split; reflexivity.
Qed.

(** Case analysis along the branches of a method body. *)
Ltac branch :=
  match goal with
  | |- context [match valid_move ?b ?a with _ => _ end] =>
      let H := fresh "Hvalid" in destruct (valid_move b a) as [?|[|]] eqn:H
  | |- context [match make_move_self ?a ?p ?e with _ => _ end] =>
      let H := fresh "Hmove" in
      destruct (make_move_self a p e) as [? [?|?]] eqn:H;
      apply make_move_self_inv in H; destruct H as [? ?]
  | |- context [match call_opponent_policy ?e with _ => _ end] =>
      let H := fresh "Hcall" in
      destruct (call_opponent_policy e) as [? [?|[?|]]] eqn:H;
      apply call_opponent_policy_inv in H; destruct H as (? & ? & ? & ? & ?)
  | |- context [match game_finished ?b with _ => _ end] =>
      let H := fresh "Hfin" in destruct (game_finished b) eqn:H
  | |- context [if ?c then _ else _] =>
      let H := fresh "Hif" in destruct c eqn:H
  end.

Lemma static_set_state e e' b : static e e' -> static e (set_state e' b).
Proof. intros H. exact H. Qed.

Lemma static_set_done e e' d : static e e' -> static e (set_done e' d).
Proof. intros H. exact H. Qed.

Lemma static_set_to_play e e' p : static e e' -> static e (set_to_play e' p).
Proof. intros H. exact H. Qed.

Lemma static_set_opponent_policy e e' p : static e e' -> static e (set_opponent_policy e' p).
Proof. intros H. exact H. Qed.

Lemma static_step e1 e2 e3 : static e2 e3 -> static e1 e2 -> static e1 e3.
Proof. intros H23 H12. eapply static_trans; eassumption. Qed.

#[local] Hint Resolve static_refl static_set_state static_set_done static_set_to_play
  static_set_opponent_policy static_step : engine.

(** [_step] assigns nothing but the board and the done flag (and lets the
    opponent advance). *)
Lemma step_static a e : static e (_step a e).1 /\ to_play (_step a e).1 = to_play e.
Proof.
  unfold _step. repeat branch; simpl; subst;
    (split; [eauto 10 with engine | simpl in *; congruence]).
Qed.

Lemma make_move_self_ok a p e e' r :
  make_move_self a p e = (e', r) ->
  board_ok e -> valid_move (state e) a = inr true -> (p = 0 \/ p = 1) ->
  board_ok e' /\ r = ok tt /\ e' = set_state e (make_move (state e) a p).1.
Proof.
  intros Hm [Hs Hoh] Hv Hp. apply make_move_self_inv in Hm as [-> ->].
  destruct (make_move_keeps_one_hot _ a p Hs Hoh Hv Hp) as (b' & -> & Hs' & Hoh').
  repeat split; assumption.
Qed.

Lemma board_ok_state e e' : state e' = state e -> board_ok e -> board_ok e'.
Proof. unfold board_ok. intros ->. trivial. Qed.

(** A step keeps the board well formed, if the opponent only makes legal
    moves. *)
Lemma step_board_ok a e :
  legal_opponent (opponent e) -> (player_color e = 0 \/ player_color e = 1) ->
  board_ok e -> board_ok (_step a e).1.
Proof.
  intros Hlegal Hpc Hok. unfold _step.
  destruct (negb (to_play e =? player_color e)); [exact Hok|].
  destruct (done e); [exact Hok|].
  destruct (valid_move (state e) a) as [x|[|]] eqn:Hv; [exact Hok| |].
  2:{ repeat branch; exact Hok. }
  destruct (make_move_self a (player_color e) e) as [e1 r1] eqn:H1.
  destruct (make_move_self_ok _ _ _ _ _ H1 Hok Hv Hpc) as (Hok1 & -> & He1).
  destruct (call_opponent_policy e1) as [e2 r2] eqn:H2.
  apply call_opponent_policy_inv in H2 as (Hst & _ & _ & Hstat & Hans).
  assert (board_ok e2) as Hok2 by (eapply board_ok_state; eassumption).
  assert (player_color e2 = player_color e) as Hpc2
    by (destruct Hstat as [-> _]; rewrite He1; reflexivity).
  assert (legal_opponent (opponent e1)) as Hlegal1 by (rewrite He1; exact Hlegal).
  destruct r2 as [x|[a'|]]; [exact Hok2| |].
  - destruct (game_finished (state e2)) as [x|g] eqn:Hg; [exact Hok2|].
    destruct (g =? 0).
    + destruct (make_move_self a' (1 - player_color e2) e2) as [e3 r3] eqn:H3.
      assert (valid_move (state e2) a' = inr true) as Hv'
        by (rewrite Hst; apply Hans; [exact Hlegal1 | reflexivity]).
      destruct (make_move_self_ok _ _ _ _ _ H3 Hok2 Hv' ltac:(lia)) as (Hok3 & -> & _).
      destruct (game_finished (state e3)); exact Hok3.
    + rewrite Hg. exact Hok2.
  - destruct (game_finished (state e2)); exact Hok2.
Qed.


(** For an agent playing Circle, [_reset] only clears the session. *)
Lemma reset_circle e :
  player_color e = CIRCLE ->
  _reset e = (set_done (set_to_play (set_state e empty_board) CIRCLE) false, ok empty_board).
Proof. intros Hpc. unfold _reset. simpl. rewrite Hpc. reflexivity. Qed.

Lemma reset_static e : static e (_reset e).1.
Proof. unfold _reset. repeat branch; simpl; subst; eauto 10 with engine. Qed.

Lemma board_ok_empty e : state e = empty_board -> board_ok e.
Proof. intros H. unfold board_ok. rewrite H. split; [apply shaped_empty_board | apply one_hot_empty_board]. Qed.

Lemma reset_board_ok e : legal_opponent (opponent e) -> board_ok (_reset e).1.
Proof.
  intros Hlegal. unfold _reset.
  set (e0 := set_done (set_to_play (set_state e empty_board) CIRCLE) false).
  assert (board_ok e0) as Hok0 by (apply board_ok_empty; reflexivity).
  destruct (negb (player_color e0 =? to_play e0)); [|exact Hok0].
  destruct (call_opponent_policy e0) as [e1 r1] eqn:H1.
  apply call_opponent_policy_inv in H1 as (Hst & _ & _ & _ & Hans).
  assert (board_ok e1) as Hok1 by (eapply board_ok_state; eassumption).
  destruct r1 as [x|[a|]]; try exact Hok1.
  destruct (make_move_self a CIRCLE e1) as [e2 r2] eqn:H2.
  assert (valid_move (state e1) a = inr true) as Hv
    by (rewrite Hst; apply Hans; [exact Hlegal | reflexivity]).
  destruct (make_move_self_ok _ _ _ _ _ H2 Hok1 Hv ltac:(left; reflexivity)) as (Hok2 & -> & _).
  exact Hok2.
Qed.

Lemma seed_inv seed entropy e :
  let e' := (_seed seed entropy e).1 in
  state e' = state e /\ to_play e' = to_play e /\ done e' = done e /\ static e e'.
Proof.
  unfold _seed. destruct (seeding_np_random seed entropy) as [g s'].
  destruct (opponent e) as [name|f st] eqn:Ho; [destruct (String.eqb name "random")|];
    simpl; repeat split; try reflexivity; apply same_callable_refl.
Qed.

(** What the constructor returns when it returns. *)
Lemma init_inv pc opp ot imm entropy e :
  __init__ pc opp ot imm entropy = inr e ->
  pc = "circle"%string /\ player_color e = CIRCLE /\ to_play e = CIRCLE /\
  state e = empty_board /\ done e = false /\
  opponent e = opp /\ illegal_move_mode e = imm /\
  (imm = "lose"%string \/ imm = "raise"%string) /\
  match opp with
  | OppStr name =>
      name = "random"%string /\
      opponent_policy e = Some (RandomPolicy (rng_from_seed entropy))
  | OppCallable _ _ => opponent_policy e = Some TheOpponent
  end.
Proof.
  unfold __init__, colormap.
  destruct (String.eqb pc "circle") eqn:Hc.
  - apply String.eqb_eq in Hc. subst pc.
    destruct (negb (String.eqb ot "numpy3c")); [discriminate|].
    destruct (String.eqb imm "lose") eqn:Hl; [|destruct (String.eqb imm "raise") eqn:Hr];
      simpl; try discriminate.
    + apply String.eqb_eq in Hl.
      unfold _seed; simpl.
      destruct opp as [name|f st]; [destruct (String.eqb name "random") eqn:Hn|];
        intros [= <-]; simpl; repeat split; auto. apply String.eqb_eq, Hn.
    + apply String.eqb_eq in Hr.
      unfold _seed; simpl.
      destruct opp as [name|f st]; [destruct (String.eqb name "random") eqn:Hn|];
        intros [= <-]; simpl; repeat split; auto. apply String.eqb_eq, Hn.
  - destruct (String.eqb pc "cross"); [|discriminate].
    destruct (negb (String.eqb ot "numpy3c")); [discriminate|].
    destruct (negb (String.eqb imm "lose" || String.eqb imm "raise")); discriminate.
Qed.

Lemma perform_static c e : static e (perform c e).1.
Proof.
  destruct c as [|a|seed entropy]; simpl.
  - pose proof (reset_static e) as H. destruct (_reset e). exact H.
  - pose proof (step_static a e) as [H _]. destruct (_step a e). exact H.
  - pose proof (seed_inv seed entropy e) as (_ & _ & _ & H). destruct (_seed seed entropy e). exact H.
Qed.

(** Every session a caller holds plays Circle, and it is Circle's turn. *)
Lemma reachable_turn e : reachable e -> player_color e = CIRCLE /\ to_play e = CIRCLE.
Proof.
  induction 1 as [pc opp ot imm entropy e Hi | c e Hr [IHp IHt]].
  - apply init_inv in Hi. tauto.
  - destruct c as [|a|seed entropy]; simpl.
    + rewrite reset_circle by exact IHp. split; [exact IHp | reflexivity].
    + pose proof (step_static a e) as [(Hp & _) Ht]. destruct (_step a e). simpl in *.
      split; congruence.
    + pose proof (seed_inv seed entropy e) as (_ & Ht & _ & (Hp & _)).
      destruct (_seed seed entropy e). simpl in *. split; congruence.
Qed.

(** Against an opponent that only makes legal moves, the board of every
    session a caller holds is well formed. *)
Lemma reachable_board_ok e : reachable e -> legal_opponent (opponent e) -> board_ok e.
Proof.
  induction 1 as [pc opp ot imm entropy e Hi | c e Hr IH]; intros Hlegal.
  - apply init_inv in Hi. apply board_ok_empty. tauto.
  - pose proof (perform_static c e) as (_ & _ & _ & Hsame).
    apply (legal_same_callable _ _ Hsame) in Hlegal. specialize (IH Hlegal).
    pose proof (reachable_turn e Hr) as [Hpc _].
    destruct c as [|a|seed entropy]; simpl.
    + pose proof (reset_board_ok e Hlegal) as H. destruct (_reset e). exact H.
    + pose proof (step_board_ok a e Hlegal ltac:(left; exact Hpc) IH) as H.
      destruct (_step a e). exact H.
    + pose proof (seed_inv seed entropy e) as (Hst & _). destruct (_seed seed entropy e).
      eapply board_ok_state; eassumption.
Qed.


Lemma turn_assertion e : to_play e = player_color e -> negb (to_play e =? player_color e) = false.
Proof. intros ->. rewrite Z.eqb_refl. reflexivity. Qed.

Lemma reachable_assertion e : reachable e -> negb (to_play e =? player_color e) = false.
Proof. intros Hr. apply turn_assertion. destruct (reachable_turn e Hr). congruence. Qed.

(** An illegal action in mode "raise": the bare [raise] statement executes
    with nothing to re-raise, and the session is as it was. *)
Lemma step_illegal_raise e a :
  to_play e = player_color e -> done e = false ->
  illegal_move_mode e = "raise"%string ->
  valid_move (state e) a = inr false ->
  _step a e = (e, inl bare_raise).
Proof.
  intros Ht Hd Hm Hv. unfold _step.
  rewrite (turn_assertion e Ht), Hd, Hv, Hm. reflexivity.
Qed.

Lemma run_app calls1 calls2 e :
  run (calls1 ++ calls2) e =
    let (e1, os1) := run calls1 e in
    let (e2, os2) := run calls2 e1 in (e2, os1 ++ os2).
Proof.
  revert e. induction calls1 as [|c calls1 IH]; intros e; simpl.
  - destruct (run calls2 e). reflexivity.
  - destruct (perform c e) as [e1 o]. rewrite IH.
    destruct (run calls1 e1) as [e2 os1]. destruct (run calls2 e2). reflexivity.
Qed.

Lemma reachable_run calls e : reachable e -> reachable (run calls e).1.
Proof.
  revert e. induction calls as [|c calls IH]; intros e Hr; simpl; [exact Hr|].
  pose proof (reach_call c e Hr) as H1. destruct (perform c e) as [e1 o]. simpl in H1.
  specialize (IH e1 H1). destruct (run calls e1). exact IH.
Qed.

(** The sessions built by [after] are sessions a caller can hold. *)
Lemma reachable_after calls pc (opp : @Opponent PS) ot imm entropy fallback :
  is_raised (__init__ pc opp ot imm entropy) = false ->
  reachable (after calls (__init__ pc opp ot imm entropy) fallback).
Proof.
  unfold after. destruct (__init__ pc opp ot imm entropy) as [x|e] eqn:Hi; [discriminate|].
  intros _. apply reachable_run. eapply reach_init. exact Hi.
Qed.

(** After a legal move the done flag is exactly "the reward is not 0",
    whether or not a cell is left to play. *)
Lemma step_done_flag e a e' b r d :
  to_play e = player_color e -> done e = false ->
  valid_move (state e) a = inr true ->
  _step a e = (e', ok (b, r, d)) ->
  d = negb (r =? 0) /\ done e' = d /\ b = state e'.
Proof.
  intros Ht Hd Hv. unfold _step. rewrite (turn_assertion e Ht), Hd, Hv.
  repeat branch; simpl; try discriminate; intros [= <- <- <- <-]; repeat split.
Qed.

(** C3. In mode "lose", a step onto an occupied cell of a session that is
    not over marks the session done and returns the board as it was, the
    reward -1 and done = true; no cell changes. *)
Theorem C3_illegal_move_loses e a :
  reachable e ->
  illegal_move_mode e = "lose"%string ->
  done e = false ->
  valid_move (state e) a = inr false ->
  _step a e = (set_done e true, ok (state e, -1, true)) /\
  state (_step a e).1 = state e /\ done (_step a e).1 = true.
Proof.
  intros Hr Hm Hd Hv.
  assert (_step a e = (set_done e true, ok (state e, -1, true))) as Hs.
  { unfold _step. rewrite (reachable_assertion e Hr), Hd, Hv, Hm. reflexivity. }
  rewrite Hs. repeat split.
Qed.

(** C4. Once a session is done, every further step, whatever the action,
    returns the same board, reward 0 and done = true and leaves the session
    exactly as it was; so does any sequence of further steps. *)
Theorem C4_step_after_done_is_noop e :
  reachable e ->
  done e = true ->
  (forall a, _step a e = (e, ok (state e, 0, true))) /\
  (forall actions,
     steps actions e = (e, List.map (fun _ => Stepped (state e, 0, true)) actions)).
Proof.
  intros Hr Hd.
  assert (forall a, _step a e = (e, ok (state e, 0, true))) as Hs.
  { intros a. unfold _step. rewrite (reachable_assertion e Hr), Hd. reflexivity. }
  split; [exact Hs|].
  unfold steps. induction actions as [|a actions IH]; [reflexivity|].
  simpl. rewrite Hs. simpl. rewrite IH. reflexivity.
Qed.

(** C5. On the board of every session a caller can hold (constructed, then
    reset, stepped and reseeded in any order), against an opponent that keeps
    to its contract of returning legal moves only, each of the nine cells has
    exactly one of its three layers at 1 and the other two at 0, and the number
    of possible actions plus the number of marked cells is 9. *)
Theorem C5_one_hot_invariant e :
  reachable e ->
  legal_opponent (opponent e) ->
  shaped (state e) /\
  one_hot (state e) /\
  (length (get_possible_actions (state e)) + marked (state e) = 9)%nat.
Proof.
  intros Hr Hlegal. destruct (reachable_board_ok e Hr Hlegal) as [Hs Hoh].
  split; [exact Hs|]. split; [exact Hoh|]. apply one_hot_count, Hoh.
Qed.


Lemma empty_board_has_moves : get_possible_actions empty_board <> [].
Proof. discriminate. Qed.

(** The opening move: one Circle mark on the empty board. *)
Lemma opening_marks a :
  valid_move empty_board a = inr true ->
  exists b, make_move empty_board a CIRCLE = (b, ok tt) /\
            marks b CIRCLE = 1%nat /\ marks b CROSS = 0%nat /\ one_hot b.
Proof.
  intros Hv.
  destruct (make_move_keeps_one_hot empty_board a CIRCLE shaped_empty_board
              one_hot_empty_board Hv ltac:(left; reflexivity)) as (b & Hb & _ & Hoh).
  exists b. split; [exact Hb|]. split; [|split; [|exact Hoh]].
  all: destruct (valid_move_inv _ _ _ Hv) as (r & Hn & Hr & _);
    rewrite (make_move_eq empty_board a CIRCLE r Hn ltac:(unfold CIRCLE; lia)) in Hb;
    injection Hb as <-;
    pose proof (mod3_range a) as Hc; generalize dependent (a mod 3); intros c _ Hc;
    assert (r = 0 \/ r = 1 \/ r = 2) as Hr' by lia;
    assert (c = 0 \/ c = 1 \/ c = 2) as Hc' by lia;
    destruct Hr' as [-> | [-> | ->]], Hc' as [-> | [-> | ->]]; reflexivity.
Qed.

(** A bound policy that keeps to the contract answers with a legal move
    when asked on a board with a free cell, and touches nothing else. *)
Lemma call_with_contract e :
  policy_contract e -> get_possible_actions (state e) <> [] ->
  exists e' a,
    call_opponent_policy e = (e', inr (Some a)) /\
    valid_move (state e) a = inr true /\
    state e' = state e /\ to_play e' = to_play e /\ done e' = done e /\
    player_color e' = player_color e.
Proof.
  unfold policy_contract, call_opponent_policy. intros Hc Hfree.
  destruct (opponent_policy e) as [[g|]|]; [| |contradiction].
  - destruct (random_policy_spec g (state e)) as (g' & [[_ Hnone] | (a & Hr & Hin)]);
      [contradiction|].
    rewrite Hr. do 2 eexists. split; [reflexivity|].
    split; [apply possible_action_valid, Hin|]. repeat split.
  - destruct (opponent e) as [name|f st]; [contradiction|].
    specialize (Hc (state e) st).
    destruct (f (state e) st) as [[x|[a|]] st']; simpl in Hc; [contradiction| |contradiction].
    do 2 eexists. split; [reflexivity|]. split; [exact Hc|]. repeat split.
Qed.

(** The body of [_reset], on an object whose opponent policy is already
    bound and keeps to its contract: the turn goes to the agent; for Circle
    the board is empty, for Cross it carries the opponent's opening mark.  No
    session the constructor returns plays Cross, so the second case is of the
    method alone. *)
Lemma reset_with_bound_policy e :
  player_color e = CIRCLE \/ (player_color e = CROSS /\ policy_contract e) ->
  exists e',
    _reset e = (e', ok (state e')) /\
    player_color e' = player_color e /\ to_play e' = player_color e /\ done e' = false /\
    (player_color e = CIRCLE -> state e' = empty_board /\ marked (state e') = 0%nat) /\
    (player_color e = CROSS ->
       to_play e' = CROSS /\ marks (state e') CIRCLE = 1%nat /\
       marks (state e') CROSS = 0%nat /\ marked (state e') = 1%nat /\ one_hot (state e')).
Proof.
  intros [Hpc | [Hpc Hc]].
  - rewrite (reset_circle e Hpc).
    exists (set_done (set_to_play (set_state e empty_board) CIRCLE) false).
    split; [reflexivity|]. simpl.
    split; [reflexivity|]. split; [symmetry; exact Hpc|]. split; [reflexivity|].
    split; [intros _; split; reflexivity|].
    intros H. rewrite Hpc in H. discriminate H.
  - unfold _reset.
    set (e0 := set_done (set_to_play (set_state e empty_board) CIRCLE) false).
    replace (negb (player_color e0 =? to_play e0)) with true
      by (unfold e0; simpl; rewrite Hpc; reflexivity).
    destruct (call_with_contract e0 Hc empty_board_has_moves)
      as (e1 & a & Hcall & Hv & Hst & Ht & Hd & Hp).
    rewrite Hcall. clear Hcall.
    destruct (opening_marks a Hv) as (b & Hb & Hm0 & Hm1 & Hoh).
    unfold make_move_self. rewrite Hst. simpl state at 1. rewrite Hb.
    exists (set_to_play (set_state e1 b) CROSS). split; [reflexivity|]. simpl.
    split; [exact Hp|]. split; [symmetry; exact Hpc|]. split; [exact Hd|].
    split.
    + intros H. rewrite Hpc in H. discriminate H.
    + intros _. unfold marked. rewrite Hm0, Hm1. repeat split. exact Hoh.
Qed.

(** C6. For an agent playing Circle, reset returns the empty board with
    the agent to move, on every session a caller can hold.  For an agent
    playing Cross it does not do what is asked of it: the only call of reset
    such an agent ever gets is the constructor's, made before [_seed] has
    bound the opponent policy, and it raises the attribute error.  The object
    is left with an empty board, no opening mark, and Circle to play, which
    is not the agent; the constructor fails with it. *)
Theorem C6_cross_reset_raises_in_constructor (opp : @Opponent PS) imm entropy :
  let self : @Env RS PS := mkEnv CROSS opp "numpy3c" imm None [] CIRCLE false in
  (_reset self).2 = throw (AttributeError "opponent_policy") /\
  state (_reset self).1 = empty_board /\
  marked (state (_reset self).1) = 0%nat /\
  to_play (_reset self).1 = CIRCLE /\ player_color (_reset self).1 = CROSS /\
  __init__ (RS := RS) "cross" opp "numpy3c" "lose" entropy =
    throw (AttributeError "opponent_policy") /\
  __init__ (RS := RS) "cross" opp "numpy3c" "raise" entropy =
    throw (AttributeError "opponent_policy") /\
  (forall e : @Env RS PS, reachable e ->
     player_color e = CIRCLE /\
     (_reset e).2 = ok empty_board /\ state (_reset e).1 = empty_board /\
     to_play (_reset e).1 = player_color e).
Proof.
  simpl. repeat split.
  - destruct (reachable_turn e H) as [Hpc _]. exact Hpc.
  - destruct (reachable_turn e H) as [Hpc _]. rewrite (reset_circle e Hpc). reflexivity.
  - destruct (reachable_turn e H) as [Hpc _]. rewrite (reset_circle e Hpc). reflexivity.
  - destruct (reachable_turn e H) as [Hpc _]. rewrite (reset_circle e Hpc).
    simpl. symmetry. exact Hpc.
Qed.

Lemma line_won_spec (b : Board) player line :
  line_won b player line = true <->
  forall pos, In pos line -> cell b player pos.1 pos.2 = 1.
Proof.
  unfold line_won. rewrite forallb_forall.
  split; intros H pos Hin; [apply Z.eqb_eq | apply Z.eqb_eq]; apply H, Hin.
Qed.

(** C7. [game_finished] scans the eight winning lines: the three rows, the
    three columns and the two diagonals.  On a board of markers a line counts
    for a player exactly when its three cells all carry the player's marker;
    the result is 1 when Circle has a line and Cross has none, -1 when Cross
    has a line and Circle has none, 0 when neither has one.  In particular
    Circle on (0,0), (0,1), (0,2) with no Cross line gives 1. *)
Theorem C7_win_detection (b : Board) :
  binary b ->
  win_lines = rows ++ columns ++ diagonals /\
  (forall player line,
     line_won b player line = true <->
     forall pos, In pos line -> cell b player pos.1 pos.2 = 1) /\
  (forall line,
     scan_line b line =
       (if line_won b CROSS line then 1 else 0, if line_won b CIRCLE line then 1 else 0)) /\
  (has_line b CIRCLE = true -> has_line b CROSS = false -> game_finished b = ok 1) /\
  (has_line b CROSS = true -> has_line b CIRCLE = false -> game_finished b = ok (-1)) /\
  (has_line b CIRCLE = false -> has_line b CROSS = false -> game_finished b = ok 0) /\
  (cell b CIRCLE 0 0 = 1 -> cell b CIRCLE 0 1 = 1 -> cell b CIRCLE 0 2 = 1 ->
   has_line b CROSS = false -> game_finished b = ok 1).
Proof.
  intros Hb. split; [reflexivity|].
  split; [intros player line; apply line_won_spec|].
  split; [intros line; apply scan_line_binary, Hb|].
  rewrite (game_finished_binary b Hb).
  repeat split.
  - intros -> ->. reflexivity.
  - intros -> ->. reflexivity.
  - intros -> ->. reflexivity.
  - intros H0 H1 H2 ->.
    replace (has_line b CIRCLE) with true; [reflexivity|].
    symmetry. unfold has_line, win_lines, line_won. simpl.
    rewrite H0, H1, H2. reflexivity.
Qed.


Lemma make_move_cases (b : Board) a p :
  (p = 0 \/ p = 1) ->
  (exists x, make_move b a p = (b, inl x)) \/ exists b', make_move b a p = (b', ok tt).
Proof.
  intros Hp. destruct (norm_index (a / 3)) as [x|r] eqn:Hr.
  - left. exists (range_error (a / 3)).
    unfold make_move, action_to_coordinate. simpl fst. simpl snd.
    rewrite (setitem_bad_row b 2 (a / 3) (a mod 3) 0 2 (a mod 3) x norm_index_2 Hr
               (norm_index_col a)).
    reflexivity.
  - right. eexists. apply (make_move_eq b a p r Hr). lia.
Qed.

(** Nothing in [_step] handles an exception of [game_finished]: if the
    board a step leaves behind is one on which [game_finished] raises, the
    step has raised, and what it raised is that exception unless the
    opponent's policy raised one first. *)
Lemma step_propagates e a x :
  (player_color e = CIRCLE \/ player_color e = CROSS) ->
  to_play e = player_color e -> done e = false ->
  valid_move (state e) a = inr true ->
  game_finished (state (_step a e).1) = inl x ->
  is_raised (_step a e).2 = true /\
  (is_raised (call_opponent_policy (make_move_self a (player_color e) e).1).2 = false ->
   (_step a e).2 = inl x).
Proof.
  intros Hpc Ht Hd Hv. unfold _step.
  rewrite (turn_assertion e Ht), Hd, Hv.
  destruct (make_move_self a (player_color e) e) as [e1 r1] eqn:H1.
  apply make_move_self_inv in H1 as [He1 Hr1].
  destruct (valid_move_inv _ _ _ Hv) as (r & Hn & _ & _).
  rewrite (make_move_eq (state e) a (player_color e) r Hn) in Hr1
    by (unfold CIRCLE, CROSS in Hpc; lia).
  simpl in Hr1. subst r1. simpl fst.
  destruct (call_opponent_policy e1) as [e2 r2] eqn:H2.
  apply call_opponent_policy_inv in H2 as (Hst & _ & _ & (Hp2 & _) & _).
  assert (1 - player_color e2 = 0 \/ 1 - player_color e2 = 1) as Hopp.
  { rewrite Hp2, He1. simpl. unfold CIRCLE, CROSS in Hpc. lia. }
  simpl snd.
  destruct r2 as [xp|[a'|]].
  - simpl. intros _. split; [reflexivity | discriminate].
  - destruct (game_finished (state e2)) as [x'|g] eqn:Hg.
    + simpl. rewrite Hg. intros [= ->]. split; [reflexivity | reflexivity].
    + destruct (g =? 0).
      * destruct (make_move_self a' (1 - player_color e2) e2) as [e3 r3] eqn:H3.
        apply make_move_self_inv in H3 as [He3 Hr3].
        destruct (make_move_cases (state e2) a' _ Hopp) as [[x0 Hmm] | (b' & Hmm)];
          rewrite Hmm in He3, Hr3; simpl in He3, Hr3; subst e3 r3.
        -- simpl. rewrite Hg. discriminate.
        -- simpl state at 1.
           destruct (game_finished b') as [x''|g'] eqn:Hg'; simpl.
           ++ rewrite Hg'. intros [= ->]. split; reflexivity.
           ++ rewrite Hg'. discriminate.
      * rewrite Hg. simpl. rewrite Hg. discriminate.
  - destruct (game_finished (state e2)) as [x'|g] eqn:Hg; simpl; rewrite Hg.
    + intros [= ->]. split; reflexivity.
    + discriminate.
Qed.

(** C8. On a board of markers on which both players have a completed
    line, [game_finished] returns none of its three results: it raises the
    error.  [_step] does not handle it: a step that leaves such a board
    behind has raised, and raised this error unless the opponent's policy
    raised first. *)
Theorem C8_both_winning_is_a_fault (b : Board) :
  binary b -> has_line b CIRCLE = true -> has_line b CROSS = true ->
  game_finished b = throw (Error both_win_msg) /\
  (forall r, game_finished b <> ok r) /\
  (forall e a,
     (player_color e = CIRCLE \/ player_color e = CROSS) ->
     to_play e = player_color e -> done e = false ->
     valid_move (state e) a = inr true ->
     state (_step a e).1 = b ->
     is_raised (_step a e).2 = true /\
     (is_raised (call_opponent_policy (make_move_self a (player_color e) e).1).2 = false ->
      (_step a e).2 = throw (Error both_win_msg))).
Proof.
  intros Hb Ho Hx.
  assert (game_finished b = throw (Error both_win_msg)) as Hg
    by (rewrite (game_finished_binary b Hb), Ho, Hx; reflexivity).
  split; [exact Hg|]. split; [intros r; rewrite Hg; discriminate|].
  intros e a Hpc Ht Hd Hv Hst.
  apply step_propagates; try assumption. rewrite Hst. exact Hg.
Qed.

Lemma init_seeded_random pc imm entropy (e : @Env RS PS) seed seed_entropy :
  __init__ pc (OppStr "random") "numpy3c" imm entropy = inr e ->
  (_seed (Some seed) seed_entropy e).1 =
    mkEnv CIRCLE (OppStr "random") "numpy3c" imm
          (Some (RandomPolicy (rng_from_seed seed))) empty_board CIRCLE false.
Proof.
  unfold __init__, colormap.
  destruct (String.eqb pc "circle"); [|destruct (String.eqb pc "cross")]; simpl.
  - destruct (String.eqb imm "lose" || String.eqb imm "raise"); simpl; [|discriminate].
    intros [= <-]. reflexivity.
  - destruct (String.eqb imm "lose" || String.eqb imm "raise"); simpl; discriminate.
  - discriminate.
Qed.

(** C9. Two sessions constructed alike against the "random" opponent, each
    from whatever entropy the system supplied, and then seeded with the same
    seed, answer the same sequence of agent actions with the same outcomes
    at every step (board, reward and done flag, or the same exception), and
    end in the same state: the opponent's moves are the same. *)
Theorem C9_same_seed_same_game pc imm entropy1 entropy2 (e1 e2 : @Env RS PS)
    seed seed_entropy1 seed_entropy2 actions :
  __init__ pc (OppStr "random") "numpy3c" imm entropy1 = inr e1 ->
  __init__ pc (OppStr "random") "numpy3c" imm entropy2 = inr e2 ->
  steps actions (_seed (Some seed) seed_entropy1 e1).1 =
  steps actions (_seed (Some seed) seed_entropy2 e2).1.
Proof.
  intros H1 H2.
  rewrite (init_seeded_random _ _ _ _ seed seed_entropy1 H1).
  rewrite (init_seeded_random _ _ _ _ seed seed_entropy2 H2).
  reflexivity.
Qed.

(** C10. The constructor never returns a session for an agent playing
    Cross: whatever the other arguments it raises, and with a recognised
    observation type and illegal-move mode what it raises is the attribute
    error of [opponent_policy], read by [_reset] before [_seed] has bound it.
    Every session a caller holds therefore plays Circle. *)
Theorem C10_cross_cannot_be_constructed (opp : @Opponent PS) ot imm entropy :
  is_raised (__init__ (RS := RS) "cross" opp ot imm entropy) = true /\
  (ot = "numpy3c"%string -> imm = "lose"%string \/ imm = "raise"%string ->
   __init__ (RS := RS) "cross" opp ot imm entropy = throw (AttributeError "opponent_policy")) /\
  (forall e : @Env RS PS, reachable e -> player_color e <> CROSS).
Proof.
  split; [|split].
  - unfold __init__. simpl.
    destruct (negb (String.eqb ot "numpy3c")); [reflexivity|].
    destruct (negb (String.eqb imm "lose" || String.eqb imm "raise")); reflexivity.
  - intros -> [-> | ->]; reflexivity.
  - intros e Hr. destruct (reachable_turn e Hr) as [-> _]. discriminate.
Qed.


(** ** Further properties of the board operations *)

Lemma row_index a :
  norm_index (a / 3) = if in_range a then inr ((a mod 9) / 3) else inl IndexError.
Proof.
  unfold in_range, norm_index, ok, throw.
  destruct ((-9 <=? a) && (a <=? 8)) eqn:Hin.
  - apply andb_true_iff in Hin as [H1 H2]. apply Z.leb_le in H1, H2.
    destruct ((0 <=? a / 3) && (a / 3 <? 3)) eqn:Hpos.
    + apply andb_true_iff in Hpos as [H3 H4]. apply Z.leb_le in H3. apply Z.ltb_lt in H4.
      f_equal. Z.div_mod_to_equations. lia.
    + replace ((-3 <=? a / 3) && (a / 3 <? 0)) with true.
      * f_equal. apply andb_false_iff in Hpos.
        destruct Hpos as [H|H]; [apply Z.leb_gt in H | apply Z.ltb_ge in H];
          Z.div_mod_to_equations; lia.
      * symmetry. apply andb_true_iff. split; [apply Z.leb_le | apply Z.ltb_lt];
          apply andb_false_iff in Hpos;
          destruct Hpos as [H|H]; [apply Z.leb_gt in H | apply Z.ltb_ge in H| apply Z.leb_gt in H | apply Z.ltb_ge in H];
          Z.div_mod_to_equations; lia.
  - apply andb_false_iff in Hin.
    replace ((0 <=? a / 3) && (a / 3 <? 3)) with false.
    + replace ((-3 <=? a / 3) && (a / 3 <? 0)) with false; [reflexivity|].
      symmetry. apply andb_false_iff.
      destruct Hin as [H|H]; [apply Z.leb_gt in H; left; apply Z.leb_gt
                             | apply Z.leb_gt in H; right; apply Z.ltb_ge];
        Z.div_mod_to_equations; lia.
    + symmetry. apply andb_false_iff.
      destruct Hin as [H|H]; [apply Z.leb_gt in H; left; apply Z.leb_gt
                             | apply Z.leb_gt in H; right; apply Z.ltb_ge];
        Z.div_mod_to_equations; lia.
Qed.

Lemma row_range a : 0 <= (a mod 9) / 3 < 3.
Proof. Z.div_mod_to_equations. lia. Qed.

(** X1. Actions and coordinates convert into each other: every action is
    the action of its coordinates, and coordinates whose column is in
    [0, 3) are the coordinates of their action. *)
Theorem X1_action_coordinate_round_trip (b : Board) a r c :
  0 <= c < 3 ->
  coordinate_to_action b (action_to_coordinate b a) = a /\
  action_to_coordinate b (coordinate_to_action b (r, c)) = (r, c).
Proof.
  intros Hc. unfold coordinate_to_action, action_to_coordinate. simpl. split.
  - Z.div_mod_to_equations. lia.
  - f_equal; Z.div_mod_to_equations; lia.
Qed.

Lemma valid_move_closed (b : Board) a :
  valid_move b a =
    if in_range a then ok (free_action b a) else throw (range_error (a / 3)).
Proof.
  unfold valid_move, action_to_coordinate. simpl fst. simpl snd.
  pose proof (row_index a) as Hrow.
  destruct (in_range a).
  - rewrite (getitem_ok b 2 (a / 3) (a mod 3) 2 (a mod 9 / 3) (a mod 3) norm_index_2 Hrow
               (norm_index_col a)).
    unfold free_action, free, ok. simpl.
    destruct (cell b 2 (a mod 9 / 3) (a mod 3) =? 1); reflexivity.
  - rewrite (getitem_bad_row b 2 (a / 3) (a mod 3) 2 (a mod 3) IndexError norm_index_2 Hrow
               (norm_index_col a)).
    reflexivity.
Qed.

(** X2. [valid_move] raises exactly for the actions outside [-9, 8]:
    OverflowError when the row index [a // 3] is in [2^63, 2^64), where
    numpy cannot convert it, and IndexError otherwise.  An action in
    [-9, -1] names the cell of the action 9 higher (numpy counts a negative
    row from the end); for an action in range the answer is whether the cell
    is still empty. *)
Theorem X2_valid_move_by_range (b : Board) a :
  valid_move b a =
    (if in_range a then ok (free_action b a) else throw (range_error (a / 3))) /\
  (range_error (a / 3) = OverflowError <->
   9223372036854775808 <= a / 3 < 18446744073709551616) /\
  (range_error (a / 3) = OverflowError \/ range_error (a / 3) = IndexError) /\
  (forall k, -9 <= k < 0 -> valid_move b k = valid_move b (k + 9)).
Proof.
  split; [apply valid_move_closed|]. split; [|split].
  - unfold range_error.
    destruct ((9223372036854775808 <=? a / 3) && (a / 3 <? 18446744073709551616)) eqn:H.
    + apply andb_true_iff in H as [H1 H2]. apply Z.leb_le in H1. apply Z.ltb_lt in H2.
      split; [intros _; split; assumption | reflexivity].
    + split; [discriminate|]. intros [H1 H2].
      apply andb_false_iff in H as [H | H];
        [apply Z.leb_gt in H | apply Z.ltb_ge in H]; lia.
  - unfold range_error. destruct (_ && _); auto.
  - intros k Hk. rewrite !valid_move_closed. unfold in_range, free_action.
    replace ((-9 <=? k) && (k <=? 8)) with true by (symmetry; apply andb_true_iff; lia).
    replace ((-9 <=? k + 9) && (k + 9 <=? 8)) with true by (symmetry; apply andb_true_iff; lia).
    replace ((k + 9) mod 9) with (k mod 9) by (Z.div_mod_to_equations; lia).
    replace ((k + 9) mod 3) with (k mod 3) by (Z.div_mod_to_equations; lia).
    reflexivity.
Qed.


Lemma action_range_of_member m : In m all_actions <-> 0 <= m < 9.
Proof.
  unfold all_actions. simpl. split; [intros H; lia|].
  intros H. assert (m = 0 \/ m = 1 \/ m = 2 \/ m = 3 \/ m = 4 \/ m = 5 \/ m = 6 \/
                    m = 7 \/ m = 8) by lia. intuition auto.
Qed.

Lemma in_range_of_action m : 0 <= m < 9 -> in_range m = true /\ m mod 9 = m.
Proof.
  intros H. split; [apply andb_true_iff; lia|]. apply Z.mod_small. lia.
Qed.

(** The possible actions are the actions whose cell is empty, in order. *)
Lemma possible_actions_closed (b : Board) :
  get_possible_actions b = List.filter (free_action b) all_actions.
Proof.
  rewrite get_possible_actions_eq.
  change all_actions with (List.map (fun pos : Z * Z => pos.1 * 3 + pos.2) grid).
  rewrite filter_map_swap.
  apply (f_equal (List.map (fun pos : Z * Z => pos.1 * 3 + pos.2))).
  apply filter_ext_in. intros [r c] Hin.
  apply list_elem_of_In, grid_spec in Hin as [Hr Hc].
  unfold free_action, free. simpl.
  replace (((r * 3 + c) mod 9) / 3) with r by (Z.div_mod_to_equations; lia).
  replace ((r * 3 + c) mod 3) with c by (Z.div_mod_to_equations; lia).
  reflexivity.
Qed.

Lemma NoDup_all_actions : List.NoDup all_actions.
Proof.
  unfold all_actions.
  repeat (apply List.NoDup_cons; [simpl; intros H; lia|]). apply List.NoDup_nil.
Qed.

(** X3. The possible actions are exactly the actions in [0, 8] that
    [valid_move] accepts, each listed once, in increasing order of the
    action (row-major order of the cells). *)
Theorem X3_possible_actions_are_the_valid_ones (b : Board) :
  get_possible_actions b = List.filter (free_action b) all_actions /\
  (forall m, In m (get_possible_actions b) <-> 0 <= m < 9 /\ valid_move b m = ok true) /\
  List.NoDup (get_possible_actions b).
Proof.
  split; [apply possible_actions_closed|]. split.
  - intros m. rewrite possible_actions_closed, filter_In, action_range_of_member.
    split.
    + intros [Hm Hf]. split; [exact Hm|].
      rewrite valid_move_closed.
      destruct (in_range_of_action m Hm) as [-> _]. rewrite Hf. reflexivity.
    + intros [Hm Hv]. split; [exact Hm|].
      rewrite valid_move_closed in Hv.
      destruct (in_range_of_action m Hm) as [Hin _]. rewrite Hin in Hv.
      injection Hv as ->. reflexivity.
  - rewrite possible_actions_closed. apply List.NoDup_filter, NoDup_all_actions.
Qed.


Lemma make_move_closed (b : Board) a p :
  in_range a = true -> 0 <= p < 3 ->
  make_move b a p =
    (<[offset p (a mod 9 / 3) (a mod 3) := 1]>
       (<[offset 2 (a mod 9 / 3) (a mod 3) := 0]> b), ok tt).
Proof.
  intros Ha Hp. apply make_move_eq; [|exact Hp]. rewrite row_index, Ha. reflexivity.
Qed.

Lemma coords_of_action_inj m k :
  0 <= m < 9 -> 0 <= k < 9 -> (m / 3, m mod 3) = (k / 3, k mod 3) <-> m = k.
Proof.
  intros Hm Hk. split; [|intros ->; reflexivity].
  intros [= H1 H2]. Z.div_mod_to_equations. lia.
Qed.

Lemma filter_filter_and {A} (f g : A -> bool) (l : list A) :
  List.filter g (List.filter f l) = List.filter (fun x => f x && g x) l.
Proof.
  induction l as [|x l IH]; [reflexivity|]. simpl.
  destruct (f x); simpl; [destruct (g x)|]; rewrite IH; reflexivity.
Qed.

(** Whether an action in [0, 8] is free after a move on the cell of [a]. *)
Lemma free_after_move (b : Board) a p m :
  shaped b -> in_range a = true -> (p = 0 \/ p = 1) -> 0 <= m < 9 ->
  free_action (make_move b a p).1 m = free_action b m && negb (m =? a mod 9).
Proof.
  intros Hs Ha Hp Hm. rewrite make_move_closed by (assumption || lia). simpl fst.
  unfold free_action, free. simpl fst. simpl snd.
  rewrite (Z.mod_small m 9) by lia.
  assert (0 <= a mod 9 < 9) as Hk by (apply Z.mod_pos_bound; lia).
  rewrite cell_after_move;
    try assumption; try lia; try apply row_range; try apply mod3_range;
    try (Z.div_mod_to_equations; lia).
  replace (a mod 3) with ((a mod 9) mod 3) by (Z.div_mod_to_equations; lia).
  destruct (decide ((m / 3, m mod 3) = (a mod 9 / 3, (a mod 9) mod 3))) as [Heq|Hne].
  - apply coords_of_action_inj in Heq; [|assumption..]. subst m.
    rewrite Z.eqb_refl, andb_false_r.
    destruct (decide (2 = p)); [lia|]. reflexivity.
  - replace (m =? a mod 9) with false; [rewrite andb_true_r; reflexivity|].
    symmetry. apply Z.eqb_neq. intros ->. apply Hne. reflexivity.
Qed.

(** X4. A move takes its own cell, and only that one, out of the possible
    actions, whether or not the cell was free; afterwards [valid_move]
    refuses the action. *)
Theorem X4_move_removes_its_action (b : Board) a p :
  shaped b -> in_range a = true -> (p = 0 \/ p = 1) ->
  get_possible_actions (make_move b a p).1 =
    List.filter (fun m => negb (m =? a mod 9)) (get_possible_actions b) /\
  valid_move (make_move b a p).1 a = ok false.
Proof.
  intros Hs Ha Hp. split.
  - rewrite !possible_actions_closed, filter_filter_and.
    apply filter_ext_in. intros m Hm. apply action_range_of_member in Hm.
    apply free_after_move; assumption.
  - rewrite valid_move_closed, Ha. f_equal.
    assert (0 <= a mod 9 < 9) as Hk by (apply Z.mod_pos_bound; lia).
    replace (free_action (make_move b a p).1 a)
      with (free_action (make_move b a p).1 (a mod 9))
      by (unfold free_action; f_equal; f_equal; [f_equal|]; Z.div_mod_to_equations; lia).
    rewrite free_after_move by assumption.
    rewrite Z.eqb_refl, andb_false_r. reflexivity.
Qed.

(** X5. The errors of [make_move].  An action outside [-9, 8] raises
    (IndexError, or OverflowError when the row index is in [2^63, 2^64)) and
    leaves the board as it was.  A player index outside [-3, 2] raises too
    (IndexError, or OverflowError when it is in [2^63, 2^64)), but only after
    the empty flag of the cell has been cleared: the cell is then no longer
    free, and no player's layer has changed. *)
Theorem X5_make_move_errors (b : Board) a p :
  (in_range a = false -> make_move b a p = (b, throw (range_error (a / 3)))) /\
  (in_range a = true -> (p < -3 \/ 3 <= p) -> shaped b ->
   make_move b a p =
     (<[offset 2 (a mod 9 / 3) (a mod 3) := 0]> b, throw (range_error p)) /\
   valid_move (make_move b a p).1 a = ok false /\
   (forall r c, 0 <= r < 3 -> 0 <= c < 3 ->
      cell (make_move b a p).1 CIRCLE r c = cell b CIRCLE r c /\
      cell (make_move b a p).1 CROSS r c = cell b CROSS r c)).
Proof.
  split.
  - intros Ha. unfold make_move, action_to_coordinate. simpl fst. simpl snd.
    pose proof (row_index a) as Hrow. rewrite Ha in Hrow.
    rewrite (setitem_bad_row b 2 (a / 3) (a mod 3) 0 2 (a mod 3) IndexError norm_index_2 Hrow
               (norm_index_col a)).
    reflexivity.
  - intros Ha Hp Hs.
    assert (make_move b a p =
              (<[offset 2 (a mod 9 / 3) (a mod 3) := 0]> b, throw (range_error p))) as Hm.
    { unfold make_move, action_to_coordinate. simpl fst. simpl snd.
      pose proof (row_index a) as Hrow. rewrite Ha in Hrow.
      rewrite (setitem_ok b 2 (a / 3) (a mod 3) 0 2 (a mod 9 / 3) (a mod 3) norm_index_2 Hrow
                 (norm_index_col a)).
      assert (norm_index p = inl IndexError) as Hnp.
      { unfold norm_index.
        replace ((0 <=? p) && (p <? 3)) with false by (symmetry; apply andb_false_iff; lia).
        replace ((-3 <=? p) && (p <? 0)) with false by (symmetry; apply andb_false_iff; lia).
        reflexivity. }
      apply (setitem_bad_layer _ p (a / 3) (a mod 3) 1 (a mod 9 / 3) (a mod 3) IndexError
               Hnp Hrow (norm_index_col a)). }
    rewrite Hm. simpl fst. split; [reflexivity|]. split.
    + rewrite valid_move_closed, Ha. unfold free_action, free. simpl fst. simpl snd.
      rewrite cell_insert_same by (assumption || lia || apply row_range || apply mod3_range).
      reflexivity.
    + intros r c Hr Hc. unfold CIRCLE, CROSS.
      pose proof (row_range a). pose proof (mod3_range a).
      split; apply cell_insert_other; try assumption; try lia; congruence.
Qed.

(** X6. [make_move] does not check that the cell is free: a move on a cell
    that the other player holds succeeds and leaves the cell marked for both,
    so the board is no longer one-hot. *)
Theorem X6_move_on_taken_cell_marks_it_twice (b : Board) a p q :
  shaped b -> in_range a = true ->
  (p = 0 \/ p = 1) -> (q = 0 \/ q = 1) -> p <> q ->
  cell b q (a mod 9 / 3) (a mod 3) = 1 ->
  (make_move b a p).2 = ok tt /\
  cell (make_move b a p).1 p (a mod 9 / 3) (a mod 3) = 1 /\
  cell (make_move b a p).1 q (a mod 9 / 3) (a mod 3) = 1 /\
  ~ one_hot (make_move b a p).1.
Proof.
  intros Hs Ha Hp Hq Hpq Hcell.
  pose proof (row_range a) as Hr. pose proof (mod3_range a) as Hc.
  rewrite make_move_closed by (assumption || lia). simpl fst. simpl snd.
  assert (cell (<[offset p (a mod 9 / 3) (a mod 3) := 1]>
                 (<[offset 2 (a mod 9 / 3) (a mod 3) := 0]> b)) p (a mod 9 / 3) (a mod 3) = 1) as H1.
  { rewrite cell_after_move by (assumption || lia).
    rewrite decide_True by reflexivity. rewrite decide_True by reflexivity. reflexivity. }
  assert (cell (<[offset p (a mod 9 / 3) (a mod 3) := 1]>
                 (<[offset 2 (a mod 9 / 3) (a mod 3) := 0]> b)) q (a mod 9 / 3) (a mod 3) = 1) as H2.
  { rewrite cell_after_move by (assumption || lia).
    rewrite decide_True by reflexivity.
    rewrite decide_False by congruence. rewrite decide_False by lia. exact Hcell. }
  split; [reflexivity|]. split; [exact H1|]. split; [exact H2|].
  intros Hoh.
  assert ((a mod 9 / 3, a mod 3) ∈ grid) as Hg by (apply grid_spec; split; assumption).
  specialize (Hoh _ Hg). unfold one_hot_at in Hoh. simpl fst in Hoh. simpl snd in Hoh.
  destruct Hp as [-> | ->], Hq as [-> | ->]; try (exfalso; apply Hpq; reflexivity); lia.
Qed.


(** ** Further properties of the engine *)

Lemma offset_decompose (i : nat) :
  (i < 27)%nat ->
  exists l r c, 0 <= l < 3 /\ 0 <= r < 3 /\ 0 <= c < 3 /\ offset l r c = i.
Proof.
  intros Hi.
  exists (Z.of_nat i / 9), (Z.of_nat i mod 9 / 3), (Z.of_nat i mod 3).
  unfold offset. repeat split; try (Z.div_mod_to_equations; lia).
Qed.

(** A well-formed board is a board of markers. *)
Lemma board_ok_binary (b : Board) : shaped b -> one_hot b -> binary b.
Proof.
  intros Hs Hoh. split; [exact Hs|]. apply Forall_lookup. intros i v Hv.
  assert (i < 27)%nat as Hi by (rewrite <- Hs; eapply lookup_lt_Some; eassumption).
  destruct (offset_decompose i Hi) as (l & r & c & Hl & Hr & Hc & Hoff).
  assert ((r, c) ∈ grid) as Hg by (apply grid_spec; split; assumption).
  specialize (Hoh _ Hg). unfold one_hot_at, cell in Hoh. simpl fst in Hoh. simpl snd in Hoh.
  assert (l = 0 \/ l = 1 \/ l = 2) as Hl' by lia.
  destruct Hl' as [-> | [-> | ->]]; rewrite Hoff, Hv in Hoh; simpl in Hoh; lia.
Qed.

(** A move changes the layer of no other player. *)
Lemma move_keeps_other_layer (b : Board) a p q r c :
  valid_move b a = inr true -> (p = 0 \/ p = 1) -> (q = 0 \/ q = 1) -> q <> p ->
  0 <= r < 3 -> 0 <= c < 3 ->
  cell (make_move b a p).1 q r c = cell b q r c.
Proof.
  intros Hv Hp Hq Hqp Hr Hc.
  destruct (valid_move_inv _ _ _ Hv) as (r0 & Hn & Hr0 & _).
  pose proof (mod3_range a) as Hc0.
  rewrite (make_move_eq b a p r0 Hn) by lia. simpl fst.
  rewrite !cell_insert_other; try assumption; try lia; try congruence.
  intros [= H1 _ _]. lia.
Qed.

Lemma move_keeps_other_lines (b : Board) a p q :
  valid_move b a = inr true -> (p = 0 \/ p = 1) -> (q = 0 \/ q = 1) -> q <> p ->
  has_line (make_move b a p).1 q = has_line b q.
Proof.
  intros Hv Hp Hq Hqp.
  pose proof (fun r c => move_keeps_other_layer b a p q r c Hv Hp Hq Hqp) as Hcell.
  unfold has_line, win_lines, line_won. simpl.
  rewrite !Hcell by lia. reflexivity.
Qed.

Lemma game_finished_values (b : Board) g :
  game_finished b = inr g -> g = 0 \/ g = -1 \/ g = 1.
Proof.
  unfold game_finished. destruct (count_wins b) as [xwin owin].
  repeat match goal with |- context [if ?c then _ else _] => destruct c end;
    unfold ok, throw; intros [= <-]; auto. 
Qed.


Lemma cross_line_ends_without_line e :
  has_line (state e) CROSS = false -> cross_line_ends e.
Proof. intros H H'. rewrite H in H'. discriminate. Qed.

(** A step of an agent playing Circle never lets Cross have a line in an
    open session, nor both players have one. *)
Lemma step_keeps_cross_line_ends a e :
  player_color e = CIRCLE -> legal_opponent (opponent e) ->
  board_ok e -> cross_line_ends e -> cross_line_ends (_step a e).1.
Proof.
  intros Hpc Hlegal Hok Hinv. unfold _step.
  destruct (negb (to_play e =? player_color e)); [exact Hinv|].
  destruct (done e) eqn:Hd; [exact Hinv|].
  assert (has_line (state e) CROSS = false) as Hx.
  { destruct (has_line (state e) CROSS) eqn:Hx; [|reflexivity].
    destruct (Hinv Hx) as [Hd' _]. rewrite Hd in Hd'. discriminate. }
  destruct (valid_move (state e) a) as [x|[|]] eqn:Hv; [exact Hinv| |].
  2:{ repeat branch; simpl; try exact Hinv.
      apply cross_line_ends_without_line. exact Hx. }
  destruct (make_move_self a (player_color e) e) as [e1 r1] eqn:H1.
  destruct (make_move_self_ok _ _ _ _ _ H1 Hok Hv ltac:(left; exact Hpc)) as (Hok1 & -> & He1).
  assert (has_line (state e1) CROSS = false) as Hx1.
  { rewrite He1. simpl. rewrite Hpc.
    rewrite (move_keeps_other_lines (state e) a CIRCLE CROSS Hv); unfold CIRCLE, CROSS; auto; lia. }
  destruct (call_opponent_policy e1) as [e2 r2] eqn:H2.
  apply call_opponent_policy_inv in H2 as (Hst & _ & _ & (Hp2 & _) & Hans).
  assert (player_color e2 = CIRCLE) as Hpc2 by (rewrite Hp2, He1; exact Hpc).
  assert (legal_opponent (opponent e1)) as Hlegal1 by (rewrite He1; exact Hlegal).
  assert (board_ok e2) as Hok2 by (eapply board_ok_state; eassumption).
  assert (binary (state e2)) as Hbin2 by (destruct Hok2; apply board_ok_binary; assumption).
  assert (has_line (state e2) CROSS = false) as Hx2 by (rewrite Hst; exact Hx1).
  assert (forall d, cross_line_ends (set_done e2 d)) as Hfin2
    by (intros d; apply cross_line_ends_without_line; exact Hx2).
  destruct r2 as [x|[a'|]].
  - apply cross_line_ends_without_line. exact Hx2.
  - rewrite (game_finished_binary _ Hbin2), Hx2.
    destruct (has_line (state e2) CIRCLE) eqn:Ho2; simpl.
    + rewrite (game_finished_binary _ Hbin2), Hx2, Ho2. simpl. apply Hfin2.
    + destruct (make_move_self a' (1 - player_color e2) e2) as [e3 r3] eqn:H3.
      assert (valid_move (state e2) a' = inr true) as Hv'
        by (rewrite Hst; apply Hans; [exact Hlegal1 | reflexivity]).
      rewrite Hpc2 in H3.
      destruct (make_move_self_ok _ _ _ _ _ H3 Hok2 Hv' ltac:(right; reflexivity))
        as (Hok3 & -> & He3).
      assert (has_line (state e3) CIRCLE = false) as Ho3.
      { rewrite He3. simpl.
        rewrite (move_keeps_other_lines (state e2) a' (1 - CIRCLE) CIRCLE Hv');
          unfold CIRCLE; auto; lia. }
      assert (binary (state e3)) as Hbin3 by (destruct Hok3; apply board_ok_binary; assumption).
      rewrite (game_finished_binary _ Hbin3), Ho3.
      assert (player_color e3 = CIRCLE) as Hpc3 by (rewrite He3; exact Hpc2).
      destruct (has_line (state e3) CROSS) eqn:Hx3; simpl; rewrite Hpc3; simpl.
      * intros _. split; [reflexivity | exact Ho3].
      * apply cross_line_ends_without_line. exact Hx3.
  - rewrite (game_finished_binary _ Hbin2), Hx2.
    destruct (has_line (state e2) CIRCLE); simpl; apply Hfin2.
Qed.

Lemma reachable_cross_line_ends e :
  reachable e -> legal_opponent (opponent e) -> cross_line_ends e.
Proof.
  induction 1 as [pc opp ot imm entropy e Hi | c e Hr IH]; intros Hlegal.
  - apply init_inv in Hi. apply cross_line_ends_without_line.
    destruct Hi as (_ & _ & _ & -> & _). reflexivity.
  - pose proof (perform_static c e) as (_ & _ & _ & Hsame).
    apply (legal_same_callable _ _ Hsame) in Hlegal. specialize (IH Hlegal).
    pose proof (reachable_turn e Hr) as [Hpc _].
    pose proof (reachable_board_ok e Hr Hlegal) as Hok.
    destruct c as [|a|seed entropy]; simpl.
    + rewrite (reset_circle e Hpc). apply cross_line_ends_without_line. reflexivity.
    + pose proof (step_keeps_cross_line_ends a e Hpc Hlegal Hok IH) as H.
      destruct (_step a e). exact H.
    + pose proof (seed_inv seed entropy e) as (Hst & _ & Hd & _).
      destruct (_seed seed entropy e) as [e' r]. simpl in *.
      unfold cross_line_ends. rewrite Hst, Hd. exact IH.
Qed.

(** X8. In every session a caller can hold, against an opponent that only
    makes legal moves, the two players never both have a line, so
    [game_finished] on the session's board never raises; and Cross has a
    line only in a session that is done. *)
Theorem X8_both_winning_is_unreachable e :
  reachable e -> legal_opponent (opponent e) ->
  (exists g, game_finished (state e) = ok g) /\
  (has_line (state e) CIRCLE && has_line (state e) CROSS = false) /\
  (has_line (state e) CROSS = true -> done e = true).
Proof.
  intros Hr Hlegal.
  destruct (reachable_board_ok e Hr Hlegal) as [Hs Hoh].
  pose proof (board_ok_binary _ Hs Hoh) as Hbin.
  pose proof (reachable_cross_line_ends e Hr Hlegal) as Hinv.
  rewrite (game_finished_binary _ Hbin).
  destruct (has_line (state e) CROSS) eqn:Hx.
  - destruct (Hinv Hx) as [Hd Ho]. rewrite Ho. repeat split; eauto.
  - destruct (has_line (state e) CIRCLE); repeat split; eauto; discriminate.
Qed.


Lemma count_one_more {A} (f f' : A -> bool) (x : A) (l : list A) :
  List.NoDup l -> In x l -> f x = false -> f' x = true ->
  (forall y, In y l -> y <> x -> f' y = f y) ->
  length (List.filter f' l) = S (length (List.filter f l)).
Proof.
  induction l as [|y l IH]; intros Hnd Hin Hfx Hfx' Hother; [contradiction|].
  apply List.NoDup_cons_iff in Hnd as [Hy Hnd].
  destruct Hin as [-> | Hin].
  - simpl. rewrite Hfx, Hfx'. simpl. f_equal. f_equal.
    apply filter_ext_in. intros z Hz. apply Hother; [right; exact Hz|].
    intros ->. contradiction.
  - assert (y <> x) as Hne by (intros ->; contradiction).
    simpl. rewrite (Hother y (or_introl eq_refl) Hne).
    specialize (IH Hnd Hin Hfx Hfx' (fun z Hz => Hother z (or_intror Hz))).
    destruct (f y); simpl; rewrite IH; reflexivity.
Qed.

Lemma NoDup_grid : List.NoDup grid.
Proof.
  unfold grid.
  repeat (apply List.NoDup_cons;
          [simpl; intros H; repeat destruct H as [H|H]; try discriminate; contradiction|]).
  apply List.NoDup_nil.
Qed.

(** A legal move adds one mark for the player who moves and none for the
    other. *)
Lemma marks_after_move (b : Board) a p q :
  shaped b -> one_hot b -> valid_move b a = inr true ->
  (p = 0 \/ p = 1) -> (q = 0 \/ q = 1) -> q <> p ->
  marks (make_move b a p).1 p = S (marks b p) /\
  marks (make_move b a p).1 q = marks b q.
Proof.
  intros Hs Hoh Hv Hp Hq Hqp. split.
  - destruct (valid_move_inv _ _ _ Hv) as (r0 & Hn & Hr0 & Hfree).
    symmetry in Hfree. apply Z.eqb_eq in Hfree.
    pose proof (mod3_range a) as Hc0.
    assert ((r0, a mod 3) ∈ grid) as Hg by (apply grid_spec; split; assumption).
    pose proof (Hoh _ Hg) as Hcell. unfold one_hot_at in Hcell.
    simpl fst in Hcell. simpl snd in Hcell.
    rewrite (make_move_eq b a p r0 Hn) by lia. simpl fst. unfold marks.
    apply (count_one_more _ _ (r0, a mod 3)).
    + apply NoDup_grid.
    + apply list_elem_of_In, Hg.
    + simpl. apply Z.eqb_neq. destruct Hp as [-> | ->]; lia.
    + simpl. rewrite cell_after_move by (assumption || lia).
      rewrite decide_True by reflexivity. rewrite decide_True by reflexivity. reflexivity.
    + intros [r c] Hin Hne. apply list_elem_of_In, grid_spec in Hin as [Hr Hc]. simpl.
      rewrite cell_after_move by (assumption || lia).
      rewrite decide_False by exact Hne. reflexivity.
  - unfold marks. apply (f_equal (@length (Z * Z))). apply filter_ext_in. intros [r c] Hin.
    apply list_elem_of_In, grid_spec in Hin as [Hr Hc]. simpl.
    rewrite (move_keeps_other_layer b a p q r c); auto.
Qed.

Lemma faithful_is_legal o : faithful_opponent o -> legal_opponent o.
Proof.
  destruct o as [name|f st]; simpl; [trivial|].
  intros H b st' a Hf. specialize (H b st'). rewrite Hf in H. exact H.
Qed.

Lemma faithful_same_callable o o' :
  same_callable o o' -> faithful_opponent o <-> faithful_opponent o'.
Proof. destruct o, o'; simpl; try contradiction; [tauto|]. intros ->. tauto. Qed.

(** Called by a session that has it bound, an opponent that keeps to its
    contract answers, and nothing but its own state changes. *)
Lemma call_faithful e :
  policy_bound e -> faithful_opponent (opponent e) ->
  exists e' ans,
    call_opponent_policy e = (e', inr ans) /\
    state e' = state e /\ to_play e' = to_play e /\ done e' = done e /\
    player_color e' = player_color e /\ policy_bound e' /\
    match ans with
    | Some a => valid_move (state e) a = inr true
    | None => get_possible_actions (state e) = []
    end.
Proof.
  unfold policy_bound, call_opponent_policy. intros Hb Hf.
  destruct (opponent e) as [name|f st] eqn:Ho.
  - destruct Hb as [Hname [g Hg]]. rewrite Hg.
    destruct (random_policy_spec g (state e)) as (g' & [[Hr Hnone] | (a & Hr & Hin)]);
      rewrite Hr; do 2 eexists; (split; [reflexivity|]); simpl; rewrite Ho;
      repeat split; eauto.
    apply possible_action_valid, Hin.
  - rewrite Hb. simpl in Hf. specialize (Hf (state e) st).
    destruct (f (state e) st) as [[x|ans] st']; simpl in Hf; [contradiction|].
    do 2 eexists. split; [reflexivity|]. simpl. repeat split; try reflexivity.
    + exact Hb.
    + destruct ans; exact Hf.
Qed.


(** What a legal step of a live session does: the agent's mark; then, if
    that completes a line, the win; if it fills the board, nothing more;
    otherwise one legal reply of the opponent, and the loss if the reply
    completes a line. *)
Lemma step_main e a :
  session_inv e -> faithful_opponent (opponent e) ->
  done e = false -> valid_move (state e) a = inr true ->
  exists e' r d,
    _step a e = (e', ok (state e', r, d)) /\ done e' = d /\
    let b1 := (make_move (state e) a CIRCLE).1 in
    ((has_line b1 CIRCLE = true /\ state e' = b1 /\ r = 1 /\ d = true) \/
     (has_line b1 CIRCLE = false /\ get_possible_actions b1 = [] /\
      state e' = b1 /\ r = 0 /\ d = false) \/
     (has_line b1 CIRCLE = false /\
      exists a', valid_move b1 a' = inr true /\
                 state e' = (make_move b1 a' CROSS).1 /\
                 d = has_line (state e') CROSS /\ r = (if d then -1 else 0) /\
                 has_line (state e') CIRCLE = false)).
Proof.
  intros (Hpc & Ht & Hmode & Hbound & Hok & Hends) Hf Hd Hv.
  assert (has_line (state e) CROSS = false) as Hx.
  { destruct (has_line (state e) CROSS) eqn:Hx; [|reflexivity].
    destruct (Hends Hx) as [Hd' _]. rewrite Hd in Hd'. discriminate. }
  unfold _step.
  rewrite (turn_assertion e) by congruence. rewrite Hd, Hv.
  destruct (make_move_self a (player_color e) e) as [e1 r1] eqn:H1.
  destruct (make_move_self_ok _ _ _ _ _ H1 Hok Hv ltac:(left; exact Hpc)) as (Hok1 & -> & He1).
  rewrite Hpc in He1. set (b1 := (make_move (state e) a CIRCLE).1) in *.
  assert (state e1 = b1) as Hs1 by (rewrite He1; reflexivity).
  assert (has_line b1 CROSS = false) as Hx1.
  { unfold b1. rewrite (move_keeps_other_lines (state e) a CIRCLE CROSS Hv);
      unfold CIRCLE, CROSS; auto; lia. }
  assert (policy_bound e1) as Hb1 by (rewrite He1; exact Hbound).
  assert (faithful_opponent (opponent e1)) as Hf1 by (rewrite He1; exact Hf).
  destruct (call_faithful e1 Hb1 Hf1) as (e2 & ans & Hcall & Hst & _ & _ & Hp2 & _ & Hans).
  rewrite Hcall. rewrite Hs1 in Hst, Hans.
  assert (player_color e2 = CIRCLE) as Hpc2 by (rewrite Hp2, He1; exact Hpc).
  assert (board_ok e2) as Hok2 by (eapply board_ok_state; [|exact Hok1]; congruence).
  assert (binary b1) as Hbin1
    by (destruct Hok1 as [? ?]; rewrite Hs1 in *; apply board_ok_binary; assumption).
  pose proof (game_finished_binary b1 Hbin1) as Hg1. rewrite Hx1 in Hg1.
  destruct (has_line b1 CIRCLE) eqn:Ho1.
  - (* the agent has completed a line *)
    exists (set_done e2 true), 1, true.
    split; [|split; [reflexivity|left; repeat split; exact Hst]].
    destruct ans as [a'|]; rewrite Hst, Hg1; simpl; rewrite ?Hst, ?Hg1, Hpc2; reflexivity.
  - destruct ans as [a'|].
    + (* the opponent replies *)
      rewrite Hst, Hg1. simpl. rewrite Hpc2.
      destruct (make_move_self a' (1 - CIRCLE) e2) as [e3 r3] eqn:H3.
      assert (valid_move (state e2) a' = inr true) as Hv' by (rewrite Hst; exact Hans).
      destruct (make_move_self_ok _ _ _ _ _ H3 Hok2 Hv' ltac:(right; reflexivity))
        as (Hok3 & -> & He3).
      rewrite Hst in He3.
      assert (state e3 = (make_move b1 a' CROSS).1) as Hs3 by (rewrite He3; reflexivity).
      assert (has_line (state e3) CIRCLE = false) as Ho3.
      { rewrite Hs3, (move_keeps_other_lines b1 a' CROSS CIRCLE Hans);
          unfold CIRCLE, CROSS; auto; lia. }
      assert (binary (state e3)) as Hbin3 by (destruct Hok3; apply board_ok_binary; assumption).
      assert (player_color e3 = CIRCLE) as Hpc3 by (rewrite He3; exact Hpc2).
      rewrite (game_finished_binary _ Hbin3), Ho3.
      destruct (has_line (state e3) CROSS) eqn:Hx3; simpl; rewrite Hpc3; simpl.
      * exists (set_done e3 true), (-1), true.
        split; [reflexivity|]. split; [reflexivity|]. right. right.
        split; [reflexivity|]. exists a'. simpl. rewrite Hx3. repeat split; assumption.
      * exists (set_done e3 false), 0, false.
        split; [reflexivity|]. split; [reflexivity|]. right. right.
        split; [reflexivity|]. exists a'. simpl. rewrite Hx3. repeat split; assumption.
    + (* no cell is left *)
      exists (set_done e2 false), 0, false.
      split; [|split; [reflexivity|right; left; repeat split; assumption]].
      simpl. rewrite Hst, Hg1, Hpc2. reflexivity.
Qed.

Lemma call_keeps_bound e e' r :
  call_opponent_policy e = (e', r) -> policy_bound e -> policy_bound e'.
Proof.
  unfold call_opponent_policy, policy_bound.
  destruct (opponent_policy e) as [[g|]|] eqn:Hp.
  - destruct (random_policy g (state e)) as [g' r']. intros [= <- <-]. simpl.
    destruct (opponent e); [intros [Hn _]; split; [exact Hn | eauto] | discriminate].
  - destruct (opponent e) as [name|f st] eqn:Ho.
    + intros [= <- <-]. rewrite Ho, Hp. trivial.
    + destruct (f (state e) st) as [r' st']. intros [= <- <-]. simpl. trivial.
  - intros [= <- <-]. rewrite Hp. trivial.
Qed.

Lemma make_move_self_keeps_bound a p e e' r :
  make_move_self a p e = (e', r) -> policy_bound e -> policy_bound e'.
Proof. intros H. apply make_move_self_inv in H as [-> _]. trivial. Qed.

Lemma step_keeps_bound a e : policy_bound e -> policy_bound (_step a e).1.
Proof.
  intros Hb. unfold _step.
  repeat match goal with
         | |- context [match valid_move ?b ?a with _ => _ end] =>
             destruct (valid_move b a) as [?|[|]]
         | |- context [match make_move_self ?a ?p ?e with _ => _ end] =>
             let H := fresh "Hmove" in
             destruct (make_move_self a p e) as [? [?|?]] eqn:H;
             pose proof (make_move_self_keeps_bound _ _ _ _ _ H ltac:(assumption)); clear H
         | |- context [match call_opponent_policy ?e with _ => _ end] =>
             let H := fresh "Hcall" in
             destruct (call_opponent_policy e) as [? [?|[?|]]] eqn:H;
             pose proof (call_keeps_bound _ _ _ H ltac:(assumption)); clear H
         | |- context [match game_finished ?b with _ => _ end] =>
             destruct (game_finished b)
         | |- context [if ?c then _ else _] => destruct c
         end;
    match goal with H : policy_bound _ |- _ => exact H end.
Qed.

(** Off the path of a legal move on a live session, a step changes at most
    the done flag. *)
Lemma step_off_main a e :
  ~ (done e = false /\ valid_move (state e) a = inr true) ->
  (_step a e).1 = e \/ ((_step a e).1 = set_done e true /\ done e = false).
Proof.
  intros Hoff. unfold _step.
  destruct (negb (to_play e =? player_color e)); [left; reflexivity|].
  destruct (done e) eqn:Hd; [left; reflexivity|].
  destruct (valid_move (state e) a) as [x|[|]]; [left; reflexivity| |].
  - exfalso. apply Hoff. split; reflexivity.
  - repeat branch; simpl; auto.
Qed.

(** Against an opponent that keeps to its contract, every session a caller
    can hold satisfies the invariant. *)
Lemma reachable_session_inv e :
  reachable e -> faithful_opponent (opponent e) -> session_inv e.
Proof.
  intros Hr Hf.
  pose proof (faithful_is_legal _ Hf) as Hlegal.
  destruct (reachable_turn e Hr) as [Hpc Ht].
  split; [exact Hpc|]. split; [exact Ht|].
  split; [|split; [|split; [apply reachable_board_ok; assumption
                           |apply reachable_cross_line_ends; assumption]]].
  - clear Hf Hlegal Hpc Ht.
    induction Hr as [pc opp ot imm entropy e Hi | c e Hr IH].
    + apply init_inv in Hi. destruct Hi as (_ & _ & _ & _ & _ & _ & -> & Hm & _). exact Hm.
    + destruct (perform_static c e) as (_ & -> & _). exact IH.
  - clear Hf Hlegal Ht.
    induction Hr as [pc opp ot imm entropy e Hi | c e Hr IH].
    + apply init_inv in Hi. destruct Hi as (_ & _ & _ & _ & _ & Ho & _ & _ & Hp).
      unfold policy_bound. rewrite Ho. destruct opp; [destruct Hp; eauto | exact Hp].
    + pose proof (reachable_turn e Hr) as [Hpc' _]. specialize (IH Hpc').
      destruct c as [|a|seed entropy]; simpl.
      * rewrite (reset_circle e Hpc'). exact IH.
      * pose proof (step_keeps_bound a e IH) as H. destruct (_step a e). exact H.
      * unfold _seed, policy_bound in *.
        destruct (seeding_np_random seed entropy) as [g s'].
        destruct (opponent e) as [name|f st] eqn:Ho.
        -- destruct IH as [-> _]. simpl. rewrite Ho. eauto.
        -- simpl. rewrite Ho. reflexivity.
Qed.


(** X7. The built-in random policy never raises.  With no cell free it
    answers [None] and does not draw from the generator; otherwise it draws
    once and its answer is one of the possible actions, hence a legal
    move. *)
Theorem X7_random_policy_answers_legally (g : rng) (b : Board) :
  (get_possible_actions b = [] -> random_policy g b = (g, ok None)) /\
  (get_possible_actions b <> [] ->
   exists a,
     random_policy g b =
       ((randint g (Z.of_nat (length (get_possible_actions b)))).2, ok (Some a)) /\
     In a (get_possible_actions b) /\ valid_move b a = ok true).
Proof.
  unfold random_policy. split.
  - intros ->. reflexivity.
  - intros Hne. destruct (get_possible_actions b) as [|m ms] eqn:Hm; [contradiction|].
    set (n := Z.of_nat (length (m :: ms))).
    pose proof (randint_range g n ltac:(unfold n; simpl length; lia)) as Hrange.
    replace (length (m :: ms) =? 0)%nat with false by reflexivity.
    destruct (randint g n) as [a g'] eqn:Hr. simpl in Hrange.
    destruct (list_getitem_in_range (m :: ms) a Hrange) as (x & Hx & Hin).
    exists x. rewrite Hx. split; [reflexivity|]. split; [exact Hin|].
    apply possible_action_valid. rewrite Hm. exact Hin.
Qed.

(** X9. Whatever the session, when a step returns, the reward is -1, 0 or
    1, the board and the done flag returned are those of the session after
    the call, and a reward other than 0 comes with done = true. *)
Theorem X9_step_result_is_consistent e a e' b r d :
  _step a e = (e', ok (b, r, d)) ->
  (r = -1 \/ r = 0 \/ r = 1) /\ b = state e' /\ d = done e' /\ (r <> 0 -> d = true).
Proof.
  unfold _step.
  repeat match goal with
         | |- context [match valid_move ?b ?a with _ => _ end] =>
             destruct (valid_move b a) as [?|[|]]
         | |- context [match make_move_self ?a ?p ?e with _ => _ end] =>
             destruct (make_move_self a p e) as [? [?|?]]
         | |- context [match call_opponent_policy ?e with _ => _ end] =>
             destruct (call_opponent_policy e) as [? [?|[?|]]]
         | |- context [match game_finished ?b with _ => _ end] =>
             let H := fresh "Hfin" in
             destruct (game_finished b) eqn:H; [|apply game_finished_values in H]
         | |- context [if ?c then _ else _] => destruct c eqn:?
         end; simpl; unfold ok, throw; try discriminate;
    intros [= <- <- <- <-]; simpl;
    (split; [lia|]); (split; [reflexivity|]);
    (split; [first [reflexivity | symmetry; assumption]|]);
    intros Hr; first [reflexivity | lia | apply negb_true_iff, Z.eqb_neq; exact Hr].
Qed.

Lemma valid_move_has_possible_action (b : Board) a :
  valid_move b a = inr true -> get_possible_actions b <> [].
Proof.
  rewrite valid_move_closed. destruct (in_range a) eqn:Ha; [|discriminate].
  unfold ok. intros [= Hfree] Hnil.
  assert (In (a mod 9) (get_possible_actions b)) as Hin.
  { rewrite possible_actions_closed. apply filter_In. split.
    - apply action_range_of_member. apply Z.mod_pos_bound. lia.
    - unfold free_action in *. rewrite Z.mod_mod by lia.
      replace ((a mod 9) mod 3) with (a mod 3) by (Z.div_mod_to_equations; lia).
      exact Hfree. }
  rewrite Hnil in Hin. contradiction.
Qed.

Lemma classic_step_path a e :
  (done e = false /\ valid_move (state e) a = inr true) \/
  ~ (done e = false /\ valid_move (state e) a = inr true).
Proof.
  destruct (done e); [right; intros [H _]; discriminate|].
  destruct (valid_move (state e) a) as [x|[|]]; [right; intros [_ H]; discriminate
                                                | left; split; reflexivity
                                                | right; intros [_ H]; discriminate].
Qed.

(** X10. Against an opponent that keeps to its contract the players
    alternate: in every session a caller can hold Circle has as many marks as
    Cross or one more, and whenever the session is not done and a cell is
    free, they have the same number. *)
Theorem X10_players_alternate e :
  reachable e -> faithful_opponent (opponent e) ->
  (marks (state e) CIRCLE = marks (state e) CROSS \/
   marks (state e) CIRCLE = S (marks (state e) CROSS)) /\
  (done e = false -> get_possible_actions (state e) <> [] ->
   marks (state e) CIRCLE = marks (state e) CROSS).
Proof.
  induction 1 as [pc opp ot imm entropy e Hi | c e Hr IH]; intros Hf.
  - apply init_inv in Hi. destruct Hi as (_ & _ & _ & -> & _).
    split; [left; reflexivity | intros _ _; reflexivity].
  - pose proof (perform_static c e) as (_ & _ & _ & Hsame).
    apply (faithful_same_callable _ _ Hsame) in Hf. specialize (IH Hf).
    pose proof (reachable_session_inv e Hr Hf) as Hinv.
    destruct c as [|a|seed entropy]; simpl.
    + destruct Hinv as (Hpc & _). rewrite (reset_circle e Hpc). simpl.
      split; [left; reflexivity | intros _ _; reflexivity].
    + destruct (classic_step_path a e) as [[Hd Hv] | Hoff].
      * destruct (step_main e a Hinv Hf Hd Hv) as (e' & r & d & Hs & Hd' & Hcases).
        rewrite Hs. simpl fst. simpl in Hcases.
        destruct Hinv as (_ & _ & _ & _ & [Hsh Hoh] & _).
        destruct IH as [_ IH].
        specialize (IH Hd (valid_move_has_possible_action _ _ Hv)).
        pose proof (marks_after_move (state e) a CIRCLE CROSS Hsh Hoh Hv
                      (or_introl eq_refl) (or_intror eq_refl) ltac:(discriminate))
          as [Hc1 Hx1].
        destruct Hcases as [(_ & -> & _ & ->) | [(_ & Hnil & -> & _ & ->) | (_ & a' & Hv' & Hst & _)]].
        -- rewrite Hc1, Hx1, IH. split; [right; reflexivity|]. rewrite Hd'. discriminate.
        -- rewrite Hc1, Hx1, IH. split; [right; reflexivity|]. intros _ Hne. contradiction.
        -- destruct (make_move_keeps_one_hot (state e) a CIRCLE Hsh Hoh Hv ltac:(left; reflexivity))
             as (b1 & Hb1 & Hsh1 & Hoh1).
           rewrite Hb1 in *. simpl fst in *.
           pose proof (marks_after_move b1 a' CROSS CIRCLE Hsh1 Hoh1 Hv'
                         (or_intror eq_refl) (or_introl eq_refl) ltac:(discriminate))
             as [Hx2 Hc2].
           rewrite Hst, Hx2, Hc2, Hc1, Hx1, IH. split; [left; reflexivity | reflexivity].
      * pose proof (step_off_main a e Hoff) as Hcase.
        destruct (_step a e) as [e' r]. simpl in Hcase. simpl fst.
        destruct Hcase as [-> | [-> Hd]]; [exact IH|].
        simpl. split; [apply IH | discriminate].
    + pose proof (seed_inv seed entropy e) as (Hst & _ & Hd & _).
      destruct (_seed seed entropy e) as [e' r]. simpl in *. rewrite Hst, Hd. exact IH.
Qed.



(** X16. A legal move on a session that is not done, against an opponent
    that keeps to its contract, always returns.  The agent's mark is placed;
    if it completes a line the reward is 1 and the session is done, with no
    reply; if it fills the board the reward is 0 and the session is not done;
    otherwise the opponent places exactly one mark on a free cell, and the
    reward is -1 with done = true if that completes a line, 0 with
    done = false if not. *)
Theorem X16_legal_step e a :
  reachable e -> faithful_opponent (opponent e) ->
  done e = false -> valid_move (state e) a = ok true ->
  exists e' r d,
    _step a e = (e', ok (state e', r, d)) /\ done e' = d /\
    let b1 := (make_move (state e) a CIRCLE).1 in
    ((has_line b1 CIRCLE = true /\ state e' = b1 /\ r = 1 /\ d = true) \/
     (has_line b1 CIRCLE = false /\ get_possible_actions b1 = [] /\
      state e' = b1 /\ r = 0 /\ d = false) \/
     (has_line b1 CIRCLE = false /\
      exists a', valid_move b1 a' = ok true /\
                 state e' = (make_move b1 a' CROSS).1 /\
                 d = has_line (state e') CROSS /\ r = (if d then -1 else 0) /\
                 has_line (state e') CIRCLE = false)).
Proof.
  intros Hr Hf Hd Hv. apply step_main; try assumption.
  apply reachable_session_inv; assumption.
Qed.

(** X11. The constructor's errors, in the order the checks are made: an
    unknown colour is a gym error; then an observation type other than
    'numpy3c' or a mode other than 'lose' and 'raise' fails the assertion;
    for an agent playing Circle an opponent string other than 'random' is a
    gym error, raised only after the board has been reset.  With
    'circle', 'numpy3c', a known mode and the opponent 'random' or a callable,
    the constructor returns the session: empty board, Circle to play, not
    done, the policy bound. *)
Theorem X11_constructor_outcomes pc (opp : @Opponent PS) ot imm entropy :
  (pc <> "circle"%string -> pc <> "cross"%string ->
   __init__ (RS := RS) pc opp ot imm entropy = throw (Error (bad_color_msg pc))) /\
  (pc = "circle"%string \/ pc = "cross"%string ->
   ot <> "numpy3c"%string \/ (imm <> "lose"%string /\ imm <> "raise"%string) ->
   __init__ (RS := RS) pc opp ot imm entropy = throw AssertionError) /\
  (pc = "circle"%string -> ot = "numpy3c"%string ->
   imm = "lose"%string \/ imm = "raise"%string ->
   __init__ (RS := RS) pc opp ot imm entropy =
     match opp with
     | OppStr name =>
         if String.eqb name "random"
         then ok (mkEnv CIRCLE opp ot imm (Some (RandomPolicy (rng_from_seed entropy)))
                        empty_board CIRCLE false)
         else throw (Error (unrecognized_opponent_msg name))
     | OppCallable _ _ =>
         ok (mkEnv CIRCLE opp ot imm (Some TheOpponent) empty_board CIRCLE false)
     end).
Proof.
  split; [|split].
  - intros H1 H2. unfold __init__, colormap.
    apply String.eqb_neq in H1, H2. rewrite H1, H2. reflexivity.
  - intros Hpc Hbad. unfold __init__.
    assert (exists color, colormap pc = Some color) as [color ->]
      by (destruct Hpc as [-> | ->]; eexists; reflexivity).
    destruct (String.eqb ot "numpy3c") eqn:Hot; simpl; [|reflexivity].
    apply String.eqb_eq in Hot.
    destruct Hbad as [Hbad | [Hl Hr]]; [contradiction|].
    apply String.eqb_neq in Hl, Hr. rewrite Hl, Hr. reflexivity.
  - intros -> -> Himm. unfold __init__. simpl.
    replace (String.eqb imm "lose" || String.eqb imm "raise") with true
      by (destruct Himm as [-> | ->]; reflexivity).
    simpl. unfold _seed. simpl.
    destruct opp as [name|f st]; [destruct (String.eqb name "random")|]; reflexivity.
Qed.


(** ** Rendering *)

Lemma code_getitem_one_hot (b : Board) r c :
  one_hot_at b (r, c) ->
  code_getitem (render_index b r c) = ok (String (symbol b r c) "").
Proof.
  unfold one_hot_at, render_index, symbol, CIRCLE, CROSS. simpl fst. simpl snd.
  intros [(-> & -> & ->) | [(-> & -> & ->) | (-> & -> & ->)]]; reflexivity.
Qed.

Lemma render_row_one_hot (b : Board) label r :
  one_hot b -> 0 <= r < 3 ->
  render_row b label r = ok (text_row b label r).
Proof.
  intros Hoh Hr. unfold render_row, text_row.
  rewrite !code_getitem_one_hot by (apply Hoh, grid_spec; lia). reflexivity.
Qed.

Lemma string_append_assoc (s1 s2 s3 : string) :
  ((s1 ++ s2) ++ s3 = s1 ++ (s2 ++ s3))%string.
Proof. induction s1 as [|ch s1 IH]; simpl; [reflexivity | rewrite IH; reflexivity]. Qed.

Lemma render_writes_one_hot (b : Board) :
  one_hot b -> render_writes b = (render_text b, ok tt).
Proof.
  intros Hoh. unfold render_writes, render_text.
  rewrite !render_row_one_hot by (assumption || lia).
  unfold ok. cbv beta iota zeta. rewrite !string_append_assoc. reflexivity.
Qed.

(** X13. On a one-hot board rendering never raises.  Mode 'ansi' returns
    the picture and writes nothing to the standard output; mode 'human'
    writes the same picture and returns None; any other mode writes it and
    returns the output stream.  The picture has 98 characters, and the
    character standing for the cell in row r, column c, at position
    32 + 28 r + 4 c, is O where Circle has marked, X where Cross has, and a
    blank where the cell is empty. *)
Theorem X13_render_shows_the_board (b : Board) :
  one_hot b ->
  render_board "ansi" false b = (EmptyString, ok (RenderedBuffer (render_text b))) /\
  render_board "human" false b = (render_text b, ok RenderedNone) /\
  (forall mode, mode <> "ansi"%string -> mode <> "human"%string ->
     render_board mode false b = (render_text b, ok RenderedStdout)) /\
  String.length (render_text b) = 98%nat /\
  (forall r c, (r, c) ∈ grid ->
     String.get (symbol_position r c) (render_text b) = Some (symbol b r c)).
Proof.
  intros Hoh. unfold render_board. rewrite (render_writes_one_hot b Hoh).
  split; [reflexivity|]. split; [reflexivity|]. split; [|split].
  - intros mode Ha Hh. apply String.eqb_neq in Ha, Hh. rewrite Ha, Hh. reflexivity.
  - reflexivity.
  - intros r c Hin. unfold grid in Hin. rewrite !elem_of_cons, elem_of_nil in Hin.
    repeat destruct Hin as [Hin|Hin]; try contradiction;
      injection Hin as -> ->; reflexivity.
Qed.

Lemma code_getitem_binary (b : Board) r c :
  binary b ->
  (code_getitem (render_index b r c) = throw IndexError /\ bad_cell b (r, c) = true) \/
  ((exists s, code_getitem (render_index b r c) = ok s) /\ bad_cell b (r, c) = false).
Proof.
  intros Hb. unfold render_index, bad_cell. simpl fst. simpl snd.
  destruct (binary_cell b 1 r c Hb) as [-> | ->], (binary_cell b 2 r c Hb) as [-> | ->];
    try (right; split; [eexists; reflexivity | reflexivity]).
  left. split; reflexivity.
Qed.

Lemma render_writes_raises (b : Board) :
  binary b ->
  (render_writes b).2 = (if existsb (bad_cell b) grid then throw IndexError else ok tt).
Proof.
  intros Hb. unfold render_writes, render_row, grid. simpl existsb.
  repeat match goal with
         | |- context [code_getitem (render_index b ?r ?c)] =>
             destruct (code_getitem_binary b r c Hb) as [[-> ->] | [[? ->] ->]];
             simpl; [reflexivity|]
         end.
  reflexivity.
Qed.

(** X14. On a board of markers, rendering raises exactly when some cell
    is flagged both as Cross's and as empty, and what it raises is
    IndexError; the Circle layer plays no part.  With [close] set it does
    nothing, for any board. *)
Theorem X14_render_fails_on_cross_and_empty (b : Board) mode :
  binary b ->
  (render_board mode false b).2 =
    (if existsb (bad_cell b) grid then throw IndexError
     else if String.eqb mode "ansi" then ok (RenderedBuffer (render_writes b).1)
     else if String.eqb mode "human" then ok RenderedNone else ok RenderedStdout) /\
  render_board mode true b = (EmptyString, ok RenderedNone).
Proof.
  intros Hb. split; [|reflexivity].
  unfold render_board. pose proof (render_writes_raises b Hb) as Hr.
  destruct (render_writes b) as [text r]. cbn [snd] in Hr. subst r. cbn [fst].
  destruct (existsb (bad_cell b) grid), (String.eqb mode "ansi"), (String.eqb mode "human");
    reflexivity.
Qed.


(** X17. On every session a caller can hold, reset returns the empty
    board and starts over: board empty, Circle to play, not done.  It does
    not consult the opponent and does not reseed: the opponent and the bound
    policy, with the generator in the state it had reached, are as before.
    A second reset changes nothing more. *)
Theorem X17_reset_starts_over e :
  reachable e ->
  (_reset e).2 = ok empty_board /\
  state (_reset e).1 = empty_board /\
  to_play (_reset e).1 = CIRCLE /\ done (_reset e).1 = false /\
  opponent (_reset e).1 = opponent e /\
  opponent_policy (_reset e).1 = opponent_policy e /\
  _reset (_reset e).1 = _reset e.
Proof.
  intros Hr. destruct (reachable_turn e Hr) as [Hpc _].
  rewrite (reset_circle e Hpc). simpl.
  repeat split. rewrite reset_circle by exact Hpc. reflexivity.
Qed.

End Properties.

(** ** The engine on concrete games *)

(** C1. In mode "raise" an action on an occupied cell does raise and does
    leave the session as it was, but what is raised is not a fault of the
    illegal move: the statement is a bare [raise], and the interpreter
    reports that there is no active exception to re-raise.  Here the agent
    has taken the centre (action 4) and plays it again. *)
Theorem C1_raise_mode_executes_bare_raise :
  reachable (centre_taken "raise") /\
  illegal_move_mode (centre_taken "raise") = "raise"%string /\
  done (centre_taken "raise") = false /\
  valid_move (state (centre_taken "raise")) 4 = ok false /\
  _step 4 (centre_taken "raise") =
    (centre_taken "raise", throw (RuntimeError "No active exception to reraise")).
Proof.
  split; [unfold centre_taken, random_session; apply reachable_after; reflexivity|].
  repeat split; vm_compute; reflexivity.
Qed.

(** C2. A drawn game does evaluate to 0, but the step that fills the board
    does not mark the session done: [done] is set to [reward != 0].  Here the
    agent plays the last free cell (action 6) of a game nobody wins; the
    session stays open, and in mode "lose" the next step, illegal whatever
    the action, ends it with reward -1. *)
Theorem C2_draw_is_not_marked_done :
  reachable before_last_move /\
  done before_last_move = false /\
  get_possible_actions (state before_last_move) = [6] /\
  (_step 6 before_last_move).2 = ok (full_board, 0, false) /\
  state (_step 6 before_last_move).1 = full_board /\
  done (_step 6 before_last_move).1 = false /\
  get_possible_actions full_board = [] /\
  marked full_board = 9%nat /\
  has_line full_board CIRCLE = false /\ has_line full_board CROSS = false /\
  game_finished full_board = ok 0 /\
  (_step 6 (_step 6 before_last_move).1).2 = ok (full_board, -1, true).
Proof.
  split; [unfold before_last_move, scripted_session; apply reachable_after; reflexivity|].
  repeat split; vm_compute; reflexivity.
Qed.

Lemma C3_illegal_move_loses_witness :
  _step 4 (centre_taken "lose") =
    (set_done (centre_taken "lose") true, ok (state (centre_taken "lose"), -1, true)) /\
  state (_step 4 (centre_taken "lose")).1 = state (centre_taken "lose") /\
  done (_step 4 (centre_taken "lose")).1 = true.
Proof.
  apply (C3_illegal_move_loses (centre_taken "lose") 4).
  - unfold centre_taken, random_session. apply reachable_after. reflexivity.
  - vm_compute. reflexivity.
  - vm_compute. reflexivity.
  - vm_compute. reflexivity.
Defined.

Lemma C4_step_after_done_is_noop_witness :
  done won_session = true /\
  (forall a, _step a won_session = (won_session, ok (state won_session, 0, true))) /\
  (forall actions,
     steps actions won_session =
       (won_session, List.map (fun _ => Stepped (state won_session, 0, true)) actions)).
Proof.
  split; [vm_compute; reflexivity|].
  apply (C4_step_after_done_is_noop won_session).
  - unfold won_session, random_session. apply reachable_after. reflexivity.
  - vm_compute. reflexivity.
Defined.

Lemma C5_one_hot_invariant_witness :
  shaped (state won_session) /\
  one_hot (state won_session) /\
  (length (get_possible_actions (state won_session)) + marked (state won_session) = 9)%nat.
Proof.
  apply (C5_one_hot_invariant won_session).
  - unfold won_session, random_session. apply reachable_after. reflexivity.
  - vm_compute. exact I.
Defined.

Lemma C7_win_detection_witness :
  binary (state won_session) /\ game_finished (state won_session) = ok 1.
Proof.
  assert (binary (state won_session)) as Hb by (apply binaryb_sound; vm_compute; reflexivity).
  split; [exact Hb|].
  destruct (C7_win_detection (state won_session) Hb) as (_ & _ & _ & _ & _ & _ & Hrow).
  apply Hrow; vm_compute; reflexivity.
Defined.

Lemma C8_both_winning_is_a_fault_witness :
  game_finished both_won_board = throw (Error both_win_msg) /\
  state (_step 5 corrupted_session).1 = both_won_board /\
  (_step 5 corrupted_session).2 = throw (Error both_win_msg).
Proof.
  destruct (C8_both_winning_is_a_fault (RS := lcg) (PS := unit) both_won_board)
    as (Hg & _ & Hstep).
  - apply binaryb_sound. vm_compute. reflexivity.
  - vm_compute. reflexivity.
  - vm_compute. reflexivity.
  - split; [exact Hg|]. split; [vm_compute; reflexivity|].
    apply (Hstep corrupted_session 5).
    + left. reflexivity.
    + reflexivity.
    + reflexivity.
    + vm_compute. reflexivity.
    + vm_compute. reflexivity.
    + vm_compute. reflexivity.
Defined.

Lemma C9_same_seed_same_game_witness :
  steps [4; 0; 1; 2]
    (_seed (Some 7) 0
       (after [] (__init__ (RS := lcg) (PS := unit) "circle" (OppStr "random") "numpy3c" "raise" 5)
              (OppStr ""))).1 =
  steps [4; 0; 1; 2]
    (_seed (Some 7) 1
       (after [] (__init__ (RS := lcg) (PS := unit) "circle" (OppStr "random") "numpy3c" "raise" 9)
              (OppStr ""))).1.
Proof.
  apply (C9_same_seed_same_game "circle" "raise" 5 9).
  - vm_compute. reflexivity.
  - vm_compute. reflexivity.
Defined.

Lemma C10_cross_cannot_be_constructed_witness :
  __init__ (RS := lcg) (PS := unit) "cross" (OppStr "random") "numpy3c" "raise" 5 =
    throw (AttributeError "opponent_policy").
Proof.
  destruct (C10_cross_cannot_be_constructed (RS := lcg) (PS := unit)
              (OppStr "random") "numpy3c" "raise" 5) as (_ & H & _).
  apply H; [reflexivity | right; reflexivity].
Defined.

(** ** The further properties on concrete boards and games *)

Lemma X1_action_coordinate_round_trip_witness :
  coordinate_to_action empty_board (action_to_coordinate empty_board 7) = 7 /\
  action_to_coordinate empty_board (coordinate_to_action empty_board (2, 1)) = (2, 1).
Proof. apply (X1_action_coordinate_round_trip empty_board 7 2 1). lia. Defined.

Lemma X2_valid_move_by_range_witness :
  valid_move empty_board (-1) = valid_move empty_board 8.
Proof.
  destruct (X2_valid_move_by_range empty_board 0) as (_ & _ & _ & H).
  apply (H (-1)). lia.
Defined.

Lemma X4_move_removes_its_action_witness :
  get_possible_actions (make_move empty_board 4 CIRCLE).1 = [0; 1; 2; 3; 5; 6; 7; 8] /\
  valid_move (make_move empty_board 4 CIRCLE).1 4 = ok false.
Proof.
  apply (X4_move_removes_its_action empty_board 4 CIRCLE).
  - reflexivity.
  - reflexivity.
  - left. reflexivity.
Defined.

Lemma X5_make_move_errors_witness :
  make_move empty_board 9 CIRCLE = (empty_board, throw IndexError) /\
  (make_move empty_board 4 5).2 = throw IndexError /\
  make_move empty_board 4 9223372036854775808 =
    (<[offset 2 1 1 := 0]> empty_board, throw OverflowError) /\
  valid_move (make_move empty_board 4 5).1 4 = ok false.
Proof.
  split; [|split; [|split]].
  - destruct (X5_make_move_errors empty_board 9 CIRCLE) as [H _].
    exact (H eq_refl).
  - destruct (X5_make_move_errors empty_board 4 5) as [_ H].
    destruct H as (Hm & _ & _); [reflexivity | lia | reflexivity |].
    rewrite Hm. reflexivity.
  - destruct (X5_make_move_errors empty_board 4 9223372036854775808) as [_ H].
    destruct H as (Hm & _ & _); [reflexivity | lia | reflexivity |].
    rewrite Hm. reflexivity.
  - destruct (X5_make_move_errors empty_board 4 5) as [_ H].
    destruct H as (_ & Hv & _); [reflexivity | lia | reflexivity |].
    exact Hv.
Defined.

Lemma X6_move_on_taken_cell_marks_it_twice_witness :
  (make_move corrupted_board 0 CIRCLE).2 = ok tt /\
  cell (make_move corrupted_board 0 CIRCLE).1 CIRCLE 0 0 = 1 /\
  cell (make_move corrupted_board 0 CIRCLE).1 CROSS 0 0 = 1 /\
  ~ one_hot (make_move corrupted_board 0 CIRCLE).1.
Proof.
  apply (X6_move_on_taken_cell_marks_it_twice corrupted_board 0 CIRCLE CROSS).
  - reflexivity.
  - reflexivity.
  - left. reflexivity.
  - right. reflexivity.
  - discriminate.
  - reflexivity.
Defined.

Lemma X8_both_winning_is_unreachable_witness :
  (exists g, game_finished (state won_session) = ok g) /\
  (has_line (state won_session) CIRCLE && has_line (state won_session) CROSS = false) /\
  (has_line (state won_session) CROSS = true -> done won_session = true).
Proof.
  apply (X8_both_winning_is_unreachable won_session).
  - unfold won_session, random_session. apply reachable_after. reflexivity.
  - vm_compute. exact I.
Defined.

Lemma X9_step_result_is_consistent_witness :
  (-1 = -1 \/ -1 = 0 \/ -1 = 1) /\
  state (centre_taken "lose") = state (set_done (centre_taken "lose") true) /\
  true = done (set_done (centre_taken "lose") true) /\ (-1 <> 0 -> true = true).
Proof.
  apply (X9_step_result_is_consistent (centre_taken "lose") 4).
  vm_compute. reflexivity.
Defined.

Lemma X10_players_alternate_witness :
  (marks (state (centre_taken "raise")) CIRCLE = marks (state (centre_taken "raise")) CROSS \/
   marks (state (centre_taken "raise")) CIRCLE = S (marks (state (centre_taken "raise")) CROSS)) /\
  (done (centre_taken "raise") = false ->
   get_possible_actions (state (centre_taken "raise")) <> [] ->
   marks (state (centre_taken "raise")) CIRCLE = marks (state (centre_taken "raise")) CROSS).
Proof.
  apply (X10_players_alternate (centre_taken "raise")).
  - unfold centre_taken, random_session. apply reachable_after. reflexivity.
  - vm_compute. exact I.
Defined.


Lemma X13_render_shows_the_board_witness :
  render_board "ansi" false empty_board =
    (EmptyString, ok (RenderedBuffer (render_text empty_board))) /\
  String.get (symbol_position 1 1) (render_text empty_board) = Some " "%char.
Proof.
  destruct (X13_render_shows_the_board empty_board one_hot_empty_board)
    as (Hansi & _ & _ & _ & Hget).
  split; [exact Hansi|].
  rewrite (Hget 1 1) by (apply grid_spec; lia). reflexivity.
Defined.

Lemma X14_render_fails_on_cross_and_empty_witness :
  (render_board "human" false crossed_free_board).2 = throw IndexError.
Proof.
  destruct (X14_render_fails_on_cross_and_empty crossed_free_board "human") as [H _].
  - apply binaryb_sound. vm_compute. reflexivity.
  - rewrite H. reflexivity.
Defined.

Lemma X16_legal_step_witness :
  exists e' r d,
    _step 4 fresh_session = (e', ok (state e', r, d)) /\ done e' = d /\
    let b1 := (make_move (state fresh_session) 4 CIRCLE).1 in
    ((has_line b1 CIRCLE = true /\ state e' = b1 /\ r = 1 /\ d = true) \/
     (has_line b1 CIRCLE = false /\ get_possible_actions b1 = [] /\
      state e' = b1 /\ r = 0 /\ d = false) \/
     (has_line b1 CIRCLE = false /\
      exists a', valid_move b1 a' = ok true /\
                 state e' = (make_move b1 a' CROSS).1 /\
                 d = has_line (state e') CROSS /\ r = (if d then -1 else 0) /\
                 has_line (state e') CIRCLE = false)).
Proof.
  apply (X16_legal_step fresh_session 4).
  - unfold fresh_session, random_session. apply reachable_after. reflexivity.
  - vm_compute. exact I.
  - vm_compute. reflexivity.
  - vm_compute. reflexivity.
Defined.

Lemma X17_reset_starts_over_witness :
  (_reset won_session).2 = ok empty_board /\
  done (_reset won_session).1 = false /\
  opponent_policy (_reset won_session).1 = opponent_policy won_session.
Proof.
  destruct (X17_reset_starts_over won_session) as (H1 & _ & _ & H2 & _ & H3 & _).
  - unfold won_session, random_session. apply reachable_after. reflexivity.
  - split; [exact H1|]. split; [exact H2 | exact H3].
Defined.
